(** * The navigation panel controller of App.vue

    A shallow embedding of the script part of the root component: the
    side navigation whose open flag is persisted in [localStorage] and
    whose three collapsible link sections follow the current route.

    JavaScript strings are modelled by [string], the reactive [sections]
    object (read and written through computed keys) by a [gmap] from
    section names to flags, [localStorage] by a [gmap] from keys to
    values, and [null] / [undefined] by [None].

    An operation below is one whole turn of the event loop: a handler
    together with the watcher callbacks its assignments trigger, which
    Vue runs before the next event is handled. *)

From Stdlib Require Import String Ascii Bool List.
From stdpp Require Import base option strings gmap.
Import ListNotations.

Local Open Scope string_scope.

(** ** The JavaScript primitives the component uses *)

Module JS.

(** [s.startsWith(pre)] *)
Definition startsWith (s pre : string) : bool := String.prefix pre s.

(** [String(b)] for a boolean [b] *)
Definition String_of (b : bool) : string := if b then "true" else "false".

(** Truthiness of a string: only the empty string is falsy. *)
Definition truthy (s : string) : bool := negb (String.eqb s "").

(** Truthiness of a property read [o[k]] on an object whose values are
    booleans: a missing property reads as [undefined], which is falsy. *)
Definition flag (o : gmap string bool) (k : string) : bool :=
  default false (o !! k).

End JS.

(** ** Browser storage: [getItem] returns [null] for a missing key *)

Module Storage.

Definition getItem (k : string) (s : gmap string string) : option string :=
  s !! k.

Definition setItem (k v : string) (s : gmap string string) : gmap string string :=
  <[k := v]> s.

Definition removeItem (k : string) (s : gmap string string) : gmap string string :=
  delete k s.

Definition clear (s : gmap string string) : gmap string string := ∅.

(** The browser lists the keys of a storage area in an order of its
    own: [order] is such a listing if it holds each key once. *)
Definition key_order (s : gmap string string) (order : list string) : Prop :=
  order ≡ₚ (map_to_list s).*1.

(** [storage.key(i)] for a storage area whose keys the browser lists as
    [order]; it is [null] from [storage.length] on. *)
Definition key (order : list string) (i : nat) : option string :=
  order !! i.

Definition length (s : gmap string string) : nat := size s.

End Storage.

(** ** Component state *)

Definition SIDENAV_OPEN_KEY : string := "demo.sidenavOpen".

(** The refs of the component together with the two collaborators it
    talks to: the router's current path and the storage area.
    [storage_log] is the trace of [localStorage.setItem] calls, most
    recent first. *)
Record App : Type := mkApp {
  isSidenavOpen : bool;
  sections : gmap string bool;
  route_path : string;
  localStorage : gmap string string;
  storage_log : list (string * string)
}.

(** [reactive({ demos: false, practiceGuided: false, practiceMinimal: false })] *)
Definition initial_sections : gmap string bool :=
  <["demos" := false]>
    (<["practiceGuided" := false]>
       (<["practiceMinimal" := false]> ∅)).

(** ** Route classification *)

Definition getSectionForRoute (path : string) : option string :=
  if JS.startsWith path "/practice/guided" then Some "practiceGuided"
  else if JS.startsWith path "/practice/minimal" then Some "practiceMinimal"
  else if String.eqb path "/theme" || String.eqb path "/display-name"
          || String.eqb path "/session-vs-local" || String.eqb path "/devtools"
       then Some "demos"
       else None.

(** [computed(() => getSectionForRoute(route.path))] *)
Definition activeSection (st : App) : option string :=
  getSectionForRoute (route_path st).

(** ** The route watcher

    The callback of [watch(() => route.path, (newPath, oldPath) => ...)],
    as a function on the [sections] object.  On the immediate run
    [oldPath] is [undefined], here [None].  Section names are non-empty
    strings, so [oldSection && ...] tests only that [oldSection] is not
    [null]. *)
Definition routeWatcher (newPath : string) (oldPath : option string)
    (secs : gmap string bool) : gmap string bool :=
  let newSection := getSectionForRoute newPath in
  let oldSection :=
    match oldPath with
    | Some p => if JS.truthy p then getSectionForRoute p else None
    | None => None
    end in
  let secs1 :=
    match oldSection with
    | Some o =>
        if bool_decide (oldSection ≠ newSection) then <[o := false]> secs else secs
    | None => secs
    end in
  match newSection with
  | Some n => <[n := true]> secs1
  | None => secs1
  end.

(** The route changed from [oldPath] to [newPath]: the router publishes
    the new path and the watcher reconciles the sections. *)
Definition onRouteChange (oldPath newPath : string) (st : App) : App :=
  {| isSidenavOpen := isSidenavOpen st;
     sections := routeWatcher newPath (Some oldPath) (sections st);
     route_path := newPath;
     localStorage := localStorage st;
     storage_log := storage_log st |}.

(** A navigation of the router.  The watcher receives the path that was
    current before; a watcher does not run when its source has not
    changed. *)
Definition navigate (newPath : string) (st : App) : App :=
  if String.eqb newPath (route_path st) then st
  else onRouteChange (route_path st) newPath st.

(** ** The sidenav flag and its watcher *)

(** The callback of [watch(isSidenavOpen, (open) => ...)]. *)
Definition persistSidenav (open : bool) (st : App) : App :=
  {| isSidenavOpen := isSidenavOpen st;
     sections := sections st;
     route_path := route_path st;
     localStorage :=
       Storage.setItem SIDENAV_OPEN_KEY (JS.String_of open) (localStorage st);
     storage_log := (SIDENAV_OPEN_KEY, JS.String_of open) :: storage_log st |}.

(** [isSidenavOpen.value = v]: assigning the value the ref already holds
    triggers nothing; a changed value runs the watcher with it. *)
Definition set_isSidenavOpen (v : bool) (st : App) : App :=
  if Bool.eqb v (isSidenavOpen st) then st
  else persistSidenav v
         {| isSidenavOpen := v;
            sections := sections st;
            route_path := route_path st;
            localStorage := localStorage st;
            storage_log := storage_log st |}.

Definition toggleSidenav (st : App) : App :=
  set_isSidenavOpen (negb (isSidenavOpen st)) st.

Definition toggleSection (section : string) (st : App) : App :=
  if bool_decide (Some section = activeSection st) then st
  else
    {| isSidenavOpen := isSidenavOpen st;
       sections := <[section := negb (JS.flag (sections st) section)]> (sections st);
       route_path := route_path st;
       localStorage := localStorage st;
       storage_log := storage_log st |}.

Definition menuButtonLabel (st : App) : string :=
  if isSidenavOpen st then "Hide menu" else "Show menu".

(** ** Start-up *)

(** Running the script block: the refs get their defaults and the route
    watcher, registered with [immediate: true], runs once with no old
    path. *)
Definition setup (store : gmap string string) (path : string) : App :=
  {| isSidenavOpen := true;
     sections := routeWatcher path None initial_sections;
     route_path := path;
     localStorage := store;
     storage_log := [] |}.

Definition onMounted (st : App) : App :=
  match Storage.getItem SIDENAV_OPEN_KEY (localStorage st) with
  | Some savedSidenav => set_isSidenavOpen (String.eqb savedSidenav "true") st
  | None => st
  end.

Definition initialize (store : gmap string string) (path : string) : App :=
  onMounted (setup store path).

(** ** Reachable states *)

Inductive reachable : App -> Prop :=
| reach_initialize store path :
    reachable (initialize store path)
| reach_onRouteChange st oldPath newPath :
    reachable st -> reachable (onRouteChange oldPath newPath st)
| reach_toggleSection st section :
    reachable st -> reachable (toggleSection section st)
| reach_toggleSidenav st :
    reachable st -> reachable (toggleSidenav st).

(** ** Vocabulary for the statements *)

(** [p] starts with [pre]: [p] is [pre] followed by some suffix. *)
Definition starts_with (p pre : string) : Prop :=
  ∃ suffix, p = pre +:+ suffix.

(** The fixed set of top-level demo paths. *)
Definition demo_path (p : string) : Prop :=
  p = "/theme" ∨ p = "/display-name" ∨ p = "/session-vs-local" ∨ p = "/devtools".

#[local] Instance demo_path_dec (p : string) : Decision (demo_path p).
Proof. unfold demo_path. apply _. Defined.

(** The section containing the current route, if any, is open. *)
Definition active_open (st : App) : Prop :=
  ∀ s, activeSection st = Some s → sections st !! s = Some true.

(** * The demo pages

    The pages follow one pattern: a ref restored from storage when the
    page is mounted, a watcher that stores the ref, and a button that
    removes the stored value.  A watcher callback runs once at the end
    of the turn in which its ref was assigned, with the final value, and
    only if that value differs from the one the ref had when the turn
    began.  Console output is not modelled. *)

(** ** ThemePreferenceDemo.vue *)

Module ThemeDemo.

(** [theme], the [data-theme] attribute of the document element
    ([None] while it has never been set) and the storage area. *)
Record t : Type := mk {
  theme : string;
  dataset_theme : option string;
  localStorage : gmap string string
}.

(** [theme.value = v] *)
Definition set_theme (v : string) (st : t) : t :=
  {| theme := v;
     dataset_theme := dataset_theme st;
     localStorage := localStorage st |}.

Definition applyThemeToPage (themeName : string) (st : t) : t :=
  {| theme := theme st;
     dataset_theme := Some themeName;
     localStorage := localStorage st |}.

(** The callback of [watch(theme, (newTheme) => ...)]. *)
Definition themeWatcher (newTheme : string) (st : t) : t :=
  applyThemeToPage newTheme
    {| theme := theme st;
       dataset_theme := dataset_theme st;
       localStorage := Storage.setItem "demo.theme" newTheme (localStorage st) |}.

(** End of a turn that began with [theme] equal to [seen]. *)
Definition flush (seen : string) (st : t) : t :=
  if String.eqb (theme st) seen then st else themeWatcher (theme st) st.

Definition turn (handler : t → t) (st : t) : t :=
  flush (theme st) (handler st).

Definition onMounted (st : t) : t :=
  let st1 :=
    match Storage.getItem "demo.theme" (localStorage st) with
    | Some savedTheme => set_theme savedTheme st
    | None => st
    end in
  applyThemeToPage (theme st1) st1.

Definition toggleTheme (st : t) : t :=
  set_theme (if String.eqb (theme st) "light" then "dark" else "light") st.

Definition resetTheme (st : t) : t :=
  let st1 :=
    {| theme := theme st;
       dataset_theme := dataset_theme st;
       localStorage := Storage.removeItem "demo.theme" (localStorage st) |} in
  applyThemeToPage "light" (set_theme "light" st1).

(** The script block run on a page whose attribute is [page]. *)
Definition setup (store : gmap string string) (page : option string) : t :=
  {| theme := "light"; dataset_theme := page; localStorage := store |}.

Definition mount (store : gmap string string) (page : option string) : t :=
  turn onMounted (setup store page).

(** The two buttons of the page. *)
Inductive event : Type := ClickToggle | ClickReset.

Definition handle (ev : event) (st : t) : t :=
  match ev with
  | ClickToggle => turn toggleTheme st
  | ClickReset => turn resetTheme st
  end.

Definition run (evs : list event) (st : t) : t :=
  foldl (λ s ev, handle ev s) st evs.

End ThemeDemo.

(** ** DisplayNameDemo.vue *)

Module DisplayNameDemo.

Record t : Type := mk {
  displayName : string;
  wasRestored : bool;
  localStorage : gmap string string
}.

(** The callback of [watch(displayName, (newName) => ...)]. *)
Definition nameWatcher (newName : string) (st : t) : t :=
  {| displayName := displayName st;
     wasRestored := wasRestored st;
     localStorage := Storage.setItem "demo.displayName" newName (localStorage st) |}.

Definition flush (seen : string) (st : t) : t :=
  if String.eqb (displayName st) seen then st
  else nameWatcher (displayName st) st.

Definition turn (handler : t → t) (st : t) : t :=
  flush (displayName st) (handler st).

Definition onMounted (st : t) : t :=
  match Storage.getItem "demo.displayName" (localStorage st) with
  | Some savedName =>
      {| displayName := savedName;
         wasRestored := true;
         localStorage := localStorage st |}
  | None => st
  end.

(** The input bound with [v-model="displayName"] received [text]. *)
Definition input (text : string) (st : t) : t :=
  {| displayName := text;
     wasRestored := wasRestored st;
     localStorage := localStorage st |}.

Definition clearName (st : t) : t :=
  {| displayName := "";
     wasRestored := false;
     localStorage := Storage.removeItem "demo.displayName" (localStorage st) |}.

(** [v-if="wasRestored && displayName"] on the badge. *)
Definition restoredBadge (st : t) : bool :=
  wasRestored st && JS.truthy (displayName st).

Definition setup (store : gmap string string) : t :=
  {| displayName := ""; wasRestored := false; localStorage := store |}.

Definition mount (store : gmap string string) : t :=
  turn onMounted (setup store).

Inductive event : Type := Input (text : string) | ClickClear.

Definition handle (ev : event) (st : t) : t :=
  match ev with
  | Input text => turn (input text) st
  | ClickClear => turn clearName st
  end.

Definition run (evs : list event) (st : t) : t :=
  foldl (λ s ev, handle ev s) st evs.

End DisplayNameDemo.

(** ** SessionVsLocalDemo.vue *)

Module SessionVsLocalDemo.

Record t : Type := mk {
  sessionValue : string;
  localValue : string;
  sessionStorage : gmap string string;
  localStorage : gmap string string
}.

(** The callback of [watch(sessionValue, (newValue) => ...)]. *)
Definition sessionWatcher (newValue : string) (st : t) : t :=
  {| sessionValue := sessionValue st;
     localValue := localValue st;
     sessionStorage :=
       Storage.setItem "demo.sessionValue" newValue (sessionStorage st);
     localStorage := localStorage st |}.

(** The callback of [watch(localValue, (newValue) => ...)]. *)
Definition localWatcher (newValue : string) (st : t) : t :=
  {| sessionValue := sessionValue st;
     localValue := localValue st;
     sessionStorage := sessionStorage st;
     localStorage := Storage.setItem "demo.localValue" newValue (localStorage st) |}.

Definition flush (seenSession seenLocal : string) (st : t) : t :=
  let st1 :=
    if String.eqb (sessionValue st) seenSession then st
    else sessionWatcher (sessionValue st) st in
  if String.eqb (localValue st1) seenLocal then st1
  else localWatcher (localValue st1) st1.

Definition turn (handler : t → t) (st : t) : t :=
  flush (sessionValue st) (localValue st) (handler st).

Definition onMounted (st : t) : t :=
  let st1 :=
    match Storage.getItem "demo.sessionValue" (sessionStorage st) with
    | Some savedSession =>
        {| sessionValue := savedSession;
           localValue := localValue st;
           sessionStorage := sessionStorage st;
           localStorage := localStorage st |}
    | None => st
    end in
  match Storage.getItem "demo.localValue" (localStorage st1) with
  | Some savedLocal =>
      {| sessionValue := sessionValue st1;
         localValue := savedLocal;
         sessionStorage := sessionStorage st1;
         localStorage := localStorage st1 |}
  | None => st1
  end.

(** The inputs bound with [v-model]. *)
Definition inputSession (text : string) (st : t) : t :=
  {| sessionValue := text;
     localValue := localValue st;
     sessionStorage := sessionStorage st;
     localStorage := localStorage st |}.

Definition inputLocal (text : string) (st : t) : t :=
  {| sessionValue := sessionValue st;
     localValue := text;
     sessionStorage := sessionStorage st;
     localStorage := localStorage st |}.

Definition clearSession (st : t) : t :=
  {| sessionValue := "";
     localValue := localValue st;
     sessionStorage := Storage.removeItem "demo.sessionValue" (sessionStorage st);
     localStorage := localStorage st |}.

Definition clearLocal (st : t) : t :=
  {| sessionValue := sessionValue st;
     localValue := "";
     sessionStorage := sessionStorage st;
     localStorage := Storage.removeItem "demo.localValue" (localStorage st) |}.

Definition clearBoth (st : t) : t := clearLocal (clearSession st).

Definition setup (session store : gmap string string) : t :=
  {| sessionValue := ""; localValue := "";
     sessionStorage := session; localStorage := store |}.

Definition mount (session store : gmap string string) : t :=
  turn onMounted (setup session store).

Inductive event : Type :=
| InputSession (text : string)
| InputLocal (text : string)
| ClickClearSession
| ClickClearLocal
| ClickClearBoth.

Definition handle (ev : event) (st : t) : t :=
  match ev with
  | InputSession text => turn (inputSession text) st
  | InputLocal text => turn (inputLocal text) st
  | ClickClearSession => turn clearSession st
  | ClickClearLocal => turn clearLocal st
  | ClickClearBoth => turn clearBoth st
  end.

Definition run (evs : list event) (st : t) : t :=
  foldl (λ s ev, handle ev s) st evs.

End SessionVsLocalDemo.

(** ** DevToolsHelperDemo.vue *)

Module DevToolsHelperDemo.

(** A plain object filled by [data[key] = value], the values being
    strings or [null].  The key [__proto__] is the prototype accessor of
    the object: assigning it a string or [null] creates no property. *)
Definition assign (k : string) (v : option string)
    (o : gmap string (option string)) : gmap string (option string) :=
  if String.eqb k "__proto__" then o else <[k := v]> o.

(** The loop [for (let i = 0; i < storage.length; i++)] with its body,
    on a storage area whose keys the browser lists as [order]: a [null]
    key would be converted to the string ["null"] by [getItem]. *)
Definition collect (order : list string) (storage : gmap string string) :
    gmap string (option string) :=
  foldl (λ data i,
           let key := default "null" (Storage.key order i) in
           let value := Storage.getItem key storage in
           assign key value data)
        ∅ (seq 0 (Storage.length storage)).

Record snapshot : Type := mkSnapshot {
  snap_local : gmap string (option string);
  snap_session : gmap string (option string);
  timestamp : string
}.

Record t : Type := mk {
  storageSnapshot : option snapshot;
  localStorage : gmap string string;
  sessionStorage : gmap string string
}.

(** [now] is the string [new Date().toLocaleTimeString()] gives;
    [localOrder] and [sessionOrder] are the orders in which the browser
    lists the keys of the two storage areas. *)
Definition logStorageToConsole (now : string) (localOrder sessionOrder : list string)
    (st : t) : t :=
  let localData := collect localOrder (localStorage st) in
  let sessionData := collect sessionOrder (sessionStorage st) in
  {| storageSnapshot :=
       Some {| snap_local := localData;
               snap_session := sessionData;
               timestamp := now |};
     localStorage := localStorage st;
     sessionStorage := sessionStorage st |}.

(** The alert shown at the end is not modelled. *)
Definition clearAllStorage (st : t) : t :=
  {| storageSnapshot := None;
     localStorage := Storage.clear (localStorage st);
     sessionStorage := Storage.clear (sessionStorage st) |}.

(** [Object.keys(o).length] *)
Definition keyCount (o : gmap string (option string)) : nat := size o.

End DevToolsHelperDemo.

(** ** The sidenav links and the routes *)

(** The [RouterLink]s of the sidenav, each with the section block that
    contains it ([None] for the link outside the blocks). *)
Definition nav_links : list (option string * string) :=
  [ (None, "/");
    (Some "demos", "/theme");
    (Some "demos", "/display-name");
    (Some "demos", "/session-vs-local");
    (Some "demos", "/devtools");
    (Some "practiceGuided", "/practice/guided/theme");
    (Some "practiceGuided", "/practice/guided/display-name");
    (Some "practiceMinimal", "/practice/minimal/theme");
    (Some "practiceMinimal", "/practice/minimal/display-name") ].

(** The [path]s of the route records of router/index.js. *)
Definition route_paths : list string :=
  [ "/"; "/theme"; "/display-name"; "/session-vs-local"; "/devtools";
    "/practice/guided/theme"; "/practice/guided/display-name";
    "/practice/minimal/theme"; "/practice/minimal/display-name" ].

(** The router moving through a list of paths. *)
Definition navigations (paths : list string) (st : App) : App :=
  foldl (λ s p, navigate p s) st paths.

(** ** Vocabulary for the further properties *)

(** The stored string, read back by [onMounted], gives the flag. *)
Definition sidenav_synced (st : App) : Prop :=
  match localStorage st !! SIDENAV_OPEN_KEY with
  | Some saved => String.eqb saved "true" = isSidenavOpen st
  | None => isSidenavOpen st = true
  end.

(** The keys of the [sections] object. *)
Definition section_names : list string :=
  ["demos"; "practiceGuided"; "practiceMinimal"].

(** Each section is open exactly if it contains the current route. *)
Definition only_active_open (st : App) : Prop :=
  ∀ id, id ∈ section_names →
    sections st !! id = Some (bool_decide (activeSection st = Some id)).

(** The three flags are properties of the object. *)
Definition sections_defined (st : App) : Prop :=
  ∀ id, id ∈ section_names → is_Some (sections st !! id).

(** The stored theme is the current one; with nothing stored the theme
    is the default. *)
Definition theme_synced (st : ThemeDemo.t) : Prop :=
  ThemeDemo.dataset_theme st = Some (ThemeDemo.theme st)
  ∧ (ThemeDemo.localStorage st !! "demo.theme" = Some (ThemeDemo.theme st)
     ∨ (ThemeDemo.localStorage st !! "demo.theme" = None
        ∧ ThemeDemo.theme st = "light")).

(** The same for the display name, whose default is the empty string. *)
Definition name_synced (st : DisplayNameDemo.t) : Prop :=
  DisplayNameDemo.localStorage st !! "demo.displayName"
    = Some (DisplayNameDemo.displayName st)
  ∨ (DisplayNameDemo.localStorage st !! "demo.displayName" = None
     ∧ DisplayNameDemo.displayName st = "").

(** The same for the two values of the comparison page. *)
Definition values_synced (st : SessionVsLocalDemo.t) : Prop :=
  (SessionVsLocalDemo.sessionStorage st !! "demo.sessionValue"
     = Some (SessionVsLocalDemo.sessionValue st)
   ∨ (SessionVsLocalDemo.sessionStorage st !! "demo.sessionValue" = None
      ∧ SessionVsLocalDemo.sessionValue st = ""))
  ∧ (SessionVsLocalDemo.localStorage st !! "demo.localValue"
       = Some (SessionVsLocalDemo.localValue st)
     ∨ (SessionVsLocalDemo.localStorage st !! "demo.localValue" = None
        ∧ SessionVsLocalDemo.localValue st = "")).

(** * Properties *)

(** ** Strings *)

Lemma prefix_append (pre suffix : string) :
  String.prefix pre (pre +:+ suffix) = true.
Proof.
  induction pre as [|c pre IH].
  - destruct suffix; reflexivity.
  - change (String c pre +:+ suffix) with (String c (pre +:+ suffix)). cbn.
    destruct (ascii_dec c c) as [_|Hne]; [exact IH | contradiction].
Qed.

Lemma prefix_starts_with (pre p : string) :
  String.prefix pre p = true → starts_with p pre.
Proof.
  revert p. induction pre as [|c pre IH]; intros p H.
  - exists p. reflexivity.
  - destruct p as [|d p]; cbn in H; [discriminate|].
    destruct (ascii_dec c d) as [->|_]; [|discriminate].
    destruct (IH p H) as [suffix ->]. exists suffix. reflexivity.
Qed.

Lemma startsWith_iff (p pre : string) :
  JS.startsWith p pre = true ↔ starts_with p pre.
Proof.
  unfold JS.startsWith. split.
  - apply prefix_starts_with.
  - intros [suffix ->]. apply prefix_append.
Qed.

Lemma startsWith_false (p pre : string) :
  JS.startsWith p pre = false ↔ ¬ starts_with p pre.
Proof.
  rewrite <- startsWith_iff. destruct (JS.startsWith p pre); split; intros H;
    try reflexivity; try discriminate; try (intros ?; discriminate).
  exfalso. apply H. reflexivity.
Qed.

Lemma truthy_false (p : string) : JS.truthy p = false → p = "".
Proof.
  unfold JS.truthy. intros H. apply negb_false_iff in H.
  apply String.eqb_eq in H. exact H.
Qed.

(** ** Route classification *)

Lemma getSectionForRoute_guided (p : string) :
  starts_with p "/practice/guided" → getSectionForRoute p = Some "practiceGuided".
Proof.
  intros H. apply startsWith_iff in H. unfold getSectionForRoute. rewrite H.
  reflexivity.
Qed.

Lemma guided_minimal_disjoint (p : string) :
  starts_with p "/practice/minimal" → ¬ starts_with p "/practice/guided".
Proof.
  intros [suffix ->]. apply startsWith_false. reflexivity.
Qed.

Lemma getSectionForRoute_minimal (p : string) :
  starts_with p "/practice/minimal" → getSectionForRoute p = Some "practiceMinimal".
Proof.
  intros H. pose proof (guided_minimal_disjoint p H) as Hg.
  apply startsWith_iff in H. apply startsWith_false in Hg.
  unfold getSectionForRoute. rewrite Hg, H. reflexivity.
Qed.

Lemma getSectionForRoute_demo (p : string) :
  demo_path p → getSectionForRoute p = Some "demos".
Proof. intros [->|[->|[->| ->]]]; reflexivity. Qed.

Lemma demo_not_practice (p : string) :
  demo_path p →
  ¬ starts_with p "/practice/guided" ∧ ¬ starts_with p "/practice/minimal".
Proof.
  intros [->|[->|[->| ->]]]; split; apply startsWith_false; reflexivity.
Qed.

Lemma getSectionForRoute_other (p : string) :
  ¬ starts_with p "/practice/guided" → ¬ starts_with p "/practice/minimal" →
  ¬ demo_path p → getSectionForRoute p = None.
Proof.
  intros Hg Hm Hd. apply startsWith_false in Hg, Hm.
  unfold getSectionForRoute. rewrite Hg, Hm.
  destruct (String.eqb_spec p "/theme") as [->|_].
  { exfalso. apply Hd. left. reflexivity. }
  destruct (String.eqb_spec p "/display-name") as [->|_].
  { exfalso. apply Hd. right. left. reflexivity. }
  destruct (String.eqb_spec p "/session-vs-local") as [->|_].
  { exfalso. apply Hd. right. right. left. reflexivity. }
  destruct (String.eqb_spec p "/devtools") as [->|_].
  { exfalso. apply Hd. right. right. right. reflexivity. }
  reflexivity.
Qed.

(** C2.  [getSectionForRoute] classifies every path, by the first rule
    that applies: a path starting with [/practice/guided] is in
    [practiceGuided]; otherwise a path starting with [/practice/minimal]
    is in [practiceMinimal]; otherwise one of the four demo paths is in
    [demos]; every other path, the home route included, is in no
    section.  The function is total, so exactly one outcome holds. *)
Theorem getSectionForRoute_total :
  (∀ p : string,
     (starts_with p "/practice/guided"
        ∧ getSectionForRoute p = Some "practiceGuided")
     ∨ (¬ starts_with p "/practice/guided" ∧ starts_with p "/practice/minimal"
        ∧ getSectionForRoute p = Some "practiceMinimal")
     ∨ (¬ starts_with p "/practice/guided" ∧ ¬ starts_with p "/practice/minimal"
        ∧ demo_path p ∧ getSectionForRoute p = Some "demos")
     ∨ (¬ starts_with p "/practice/guided" ∧ ¬ starts_with p "/practice/minimal"
        ∧ ¬ demo_path p ∧ getSectionForRoute p = None))
  ∧ getSectionForRoute "/" = None.
Proof.
  split; [|reflexivity]. intros p.
  destruct (JS.startsWith p "/practice/guided") eqn:Hg.
  { apply startsWith_iff in Hg. left. split; [exact Hg|].
    apply getSectionForRoute_guided, Hg. }
  apply startsWith_false in Hg. right.
  destruct (JS.startsWith p "/practice/minimal") eqn:Hm.
  { apply startsWith_iff in Hm. left. repeat split; try assumption.
    apply getSectionForRoute_minimal, Hm. }
  apply startsWith_false in Hm. right.
  destruct (decide (demo_path p)) as [Hd|Hd].
  - left. repeat split; try assumption. apply getSectionForRoute_demo, Hd.
  - right. repeat split; try assumption.
    apply getSectionForRoute_other; assumption.
Qed.

(** ** The route watcher *)

(** The guard [oldPath ? ... : null] changes nothing for a string: the
    empty path is in no section anyway. *)
Lemma oldSection_of_string (p : string) :
  (if JS.truthy p then getSectionForRoute p else None) = getSectionForRoute p.
Proof.
  destruct (JS.truthy p) eqn:Ht; [reflexivity|].
  apply truthy_false in Ht. subst p. reflexivity.
Qed.

(** What the watcher leaves in each property of [sections]. *)
Lemma routeWatcher_lookup (newPath : string) (oldPath : option string)
    (secs : gmap string bool) (id : string) :
  routeWatcher newPath oldPath secs !! id =
    if bool_decide (getSectionForRoute newPath = Some id) then Some true
    else if bool_decide (oldPath ≫= getSectionForRoute = Some id) then Some false
    else secs !! id.
Proof.
  unfold routeWatcher.
  assert (match oldPath with
          | Some p => if JS.truthy p then getSectionForRoute p else None
          | None => None
          end = oldPath ≫= getSectionForRoute) as ->.
  { destruct oldPath as [p|]; [apply oldSection_of_string | reflexivity]. }
  destruct (getSectionForRoute newPath) as [n|];
    destruct (oldPath ≫= getSectionForRoute) as [o|];
    repeat case_bool_decide; simplify_eq;
    repeat (rewrite lookup_insert_ne by congruence);
    rewrite ?lookup_insert_eq; congruence.
Qed.

Lemma routeWatcher_new_open (newPath : string) (oldPath : option string)
    (secs : gmap string bool) (s : string) :
  getSectionForRoute newPath = Some s →
  routeWatcher newPath oldPath secs !! s = Some true.
Proof.
  intros H. rewrite routeWatcher_lookup, bool_decide_eq_true_2; done.
Qed.

(** Within one section the watcher only re-opens what is open already. *)
Lemma routeWatcher_same_section (newPath oldPath : string) (secs : gmap string bool) :
  getSectionForRoute oldPath = getSectionForRoute newPath →
  (∀ s, getSectionForRoute newPath = Some s → secs !! s = Some true) →
  routeWatcher newPath (Some oldPath) secs = secs.
Proof.
  intros Heq Hopen. apply map_eq. intros id.
  rewrite routeWatcher_lookup. cbn. rewrite Heq.
  case_bool_decide as Hn; [|reflexivity].
  symmetry. apply Hopen, Hn.
Qed.

(** ** What each operation leaves alone *)

Lemma set_isSidenavOpen_sections v st :
  sections (set_isSidenavOpen v st) = sections st.
Proof. unfold set_isSidenavOpen. destruct (Bool.eqb _ _); reflexivity. Qed.

Lemma set_isSidenavOpen_route v st :
  route_path (set_isSidenavOpen v st) = route_path st.
Proof. unfold set_isSidenavOpen. destruct (Bool.eqb _ _); reflexivity. Qed.

Lemma set_isSidenavOpen_value v st :
  isSidenavOpen (set_isSidenavOpen v st) = v.
Proof.
  unfold set_isSidenavOpen. destruct (Bool.eqb v (isSidenavOpen st)) eqn:E.
  - apply Bool.eqb_prop in E. congruence.
  - reflexivity.
Qed.

Lemma onMounted_sections st : sections (onMounted st) = sections st.
Proof.
  unfold onMounted. destruct (Storage.getItem _ _);
    [apply set_isSidenavOpen_sections | reflexivity].
Qed.

Lemma onMounted_route st : route_path (onMounted st) = route_path st.
Proof.
  unfold onMounted. destruct (Storage.getItem _ _);
    [apply set_isSidenavOpen_route | reflexivity].
Qed.

Lemma toggleSection_route section st :
  route_path (toggleSection section st) = route_path st.
Proof. unfold toggleSection. case_bool_decide; reflexivity. Qed.

Lemma toggleSection_other section st other :
  other ≠ section →
  sections (toggleSection section st) !! other = sections st !! other.
Proof.
  intros Hne. unfold toggleSection. case_bool_decide; [reflexivity|].
  cbn. apply lookup_insert_ne. congruence.
Qed.

(** ** The active section stays open *)

Lemma active_open_initialize store path : active_open (initialize store path).
Proof.
  intros s. unfold activeSection, initialize.
  rewrite onMounted_route, onMounted_sections. cbn.
  apply routeWatcher_new_open.
Qed.

Lemma active_open_onRouteChange oldPath newPath st :
  active_open (onRouteChange oldPath newPath st).
Proof. intros s. unfold activeSection. cbn. apply routeWatcher_new_open. Qed.

Lemma active_open_toggleSection section st :
  active_open st → active_open (toggleSection section st).
Proof.
  intros Hst s. unfold activeSection. rewrite toggleSection_route.
  intros Hs. destruct (decide (s = section)) as [->|Hne].
  - unfold toggleSection, activeSection. rewrite Hs.
    rewrite bool_decide_eq_true_2 by reflexivity. apply Hst, Hs.
  - rewrite toggleSection_other by exact Hne. apply Hst, Hs.
Qed.

Lemma active_open_toggleSidenav st :
  active_open st → active_open (toggleSidenav st).
Proof.
  intros Hst s. unfold activeSection, toggleSidenav.
  rewrite set_isSidenavOpen_route, set_isSidenavOpen_sections. apply Hst.
Qed.

Lemma reachable_active_open st : reachable st → active_open st.
Proof.
  induction 1 as [store path | st oldPath newPath _ _
                  | st section _ IH | st _ IH].
  - apply active_open_initialize.
  - apply active_open_onRouteChange.
  - apply active_open_toggleSection, IH.
  - apply active_open_toggleSidenav, IH.
Qed.

(** Router navigations stay within the reachable states. *)
Lemma reachable_navigate newPath st : reachable st → reachable (navigate newPath st).
Proof.
  intros H. unfold navigate. destruct (String.eqb _ _); [exact H|].
  apply reach_onRouteChange, H.
Qed.

(** C1.  In every state reached from [initialize] by route changes,
    section toggles and sidenav toggles, the section that contains the
    current route, if there is one, is open; and right after any route
    change, whatever the two paths and whatever the sections were
    before, the section of the new path is open. *)
Theorem active_section_always_open :
  (∀ st, reachable st →
     ∀ s, activeSection st = Some s → sections st !! s = Some true)
  ∧ (∀ oldPath newPath st s,
       getSectionForRoute newPath = Some s →
       sections (onRouteChange oldPath newPath st) !! s = Some true).
Proof.
  split.
  - intros st Hst. exact (reachable_active_open st Hst).
  - intros oldPath newPath st s Hs. cbn. apply routeWatcher_new_open, Hs.
Qed.

Lemma active_section_always_open_witness :
  let st := toggleSidenav
              (toggleSection "practiceMinimal"
                 (onRouteChange "/" "/practice/guided/theme" (initialize ∅ "/"))) in
  reachable st
  ∧ activeSection st = Some "practiceGuided"
  ∧ sections st !! "practiceGuided" = Some true
  ∧ getSectionForRoute "/devtools" = Some "demos"
  ∧ sections (onRouteChange "/practice/guided/theme" "/devtools" st) !! "demos"
    = Some true.
Proof.
  intros st.
  assert (reachable st) as Hst.
  { apply reach_toggleSidenav, reach_toggleSection, reach_onRouteChange,
      reach_initialize. }
  split; [exact Hst|]. split; [reflexivity|].
  split; [apply (proj1 active_section_always_open st Hst); reflexivity|].
  split; [reflexivity|].
  apply (proj2 active_section_always_open); reflexivity.
Defined.

(** ** Route changes *)

(** C3.  A route change closes the section of the old path exactly when
    there is one and it is not the section of the new path, opens the
    section of the new path when there is one, and leaves every other
    flag as it was.  From the home route with all sections closed, going
    to [/practice/guided/theme] opens [practiceGuided] only; going on to
    [/theme] closes it and opens [demos]. *)
Theorem onRouteChange_sections :
  (∀ oldPath newPath st id,
     sections (onRouteChange oldPath newPath st) !! id =
       if bool_decide (getSectionForRoute newPath = Some id) then Some true
       else if bool_decide (getSectionForRoute oldPath = Some id) then Some false
       else sections st !! id)
  ∧ (let s0 := initialize ∅ "/" in
     let s1 := navigate "/practice/guided/theme" s0 in
     let s2 := navigate "/theme" s1 in
     sections s0 = initial_sections
     ∧ sections s1 = <["practiceGuided" := true]> initial_sections
     ∧ sections s2 = <["demos" := true]> initial_sections).
Proof.
  split.
  - intros oldPath newPath st id. cbn -[routeWatcher].
    apply routeWatcher_lookup.
  - cbv zeta. repeat split; apply map_eq; intros id;
      vm_compute; reflexivity.
Qed.

(** ** Toggling a section *)

Lemma toggleSection_active section st :
  Some section = activeSection st → toggleSection section st = st.
Proof.
  intros H. unfold toggleSection. rewrite bool_decide_eq_true_2 by exact H.
  reflexivity.
Qed.

(** C4.  Toggling the section that contains the current route does
    nothing, however often it is repeated; toggling any other section
    flips its flag and leaves the other flags as they were. *)
Theorem toggleSection_guarded (section : string) (st : App) :
  (Some section = activeSection st →
     ∀ n, Nat.iter n (toggleSection section) st = st)
  ∧ (Some section ≠ activeSection st →
     JS.flag (sections (toggleSection section st)) section
       = negb (JS.flag (sections st) section)
     ∧ ∀ other, other ≠ section →
         sections (toggleSection section st) !! other = sections st !! other).
Proof.
  split.
  - intros Hact n. induction n as [|n IH]; [reflexivity|].
    rewrite Nat.iter_succ, IH. apply toggleSection_active, Hact.
  - intros Hne. split.
    + unfold toggleSection. rewrite bool_decide_eq_false_2 by exact Hne.
      cbn. unfold JS.flag at 1. rewrite lookup_insert_eq. reflexivity.
    + intros other Hother. apply toggleSection_other, Hother.
Qed.

Lemma toggleSection_guarded_witness :
  let st := initialize ∅ "/theme" in
  (Some "demos" = activeSection st
   ∧ Nat.iter 3 (toggleSection "demos") st = st)
  ∧ (Some "practiceGuided" ≠ activeSection st
     ∧ JS.flag (sections (toggleSection "practiceGuided" st)) "practiceGuided"
       = negb (JS.flag (sections st) "practiceGuided")
     ∧ sections (toggleSection "practiceGuided" st) !! "demos"
       = sections st !! "demos").
Proof.
  intros st. split.
  - split; [reflexivity|].
    apply (proj1 (toggleSection_guarded "demos" st)). reflexivity.
  - assert (Some "practiceGuided" ≠ activeSection st) as Hne by discriminate.
    split; [exact Hne|].
    destruct (proj2 (toggleSection_guarded "practiceGuided" st) Hne) as [Hflip Hrest].
    split; [exact Hflip|]. apply Hrest. discriminate.
Defined.

(** ** The sidenav flag *)

Lemma toggleSidenav_unfold st :
  toggleSidenav st =
    {| isSidenavOpen := negb (isSidenavOpen st);
       sections := sections st;
       route_path := route_path st;
       localStorage :=
         <[SIDENAV_OPEN_KEY := JS.String_of (negb (isSidenavOpen st))]> (localStorage st);
       storage_log :=
         (SIDENAV_OPEN_KEY, JS.String_of (negb (isSidenavOpen st))) :: storage_log st |}.
Proof.
  unfold toggleSidenav, set_isSidenavOpen.
  destruct (isSidenavOpen st); reflexivity.
Qed.

(** C5.  [toggleSidenav] negates the flag, so two toggles in a row give
    the original value back; and after every toggle the value stored
    under the sidenav key is the string form of the flag in memory. *)
Theorem toggleSidenav_involution_persisted (st : App) :
  isSidenavOpen (toggleSidenav st) = negb (isSidenavOpen st)
  ∧ isSidenavOpen (toggleSidenav (toggleSidenav st)) = isSidenavOpen st
  ∧ Storage.getItem SIDENAV_OPEN_KEY (localStorage (toggleSidenav st))
    = Some (JS.String_of (isSidenavOpen (toggleSidenav st)))
  ∧ Storage.getItem SIDENAV_OPEN_KEY (localStorage (toggleSidenav (toggleSidenav st)))
    = Some (JS.String_of (isSidenavOpen st)).
Proof.
  rewrite !toggleSidenav_unfold. cbn. unfold Storage.getItem.
  rewrite negb_involutive, !lookup_insert_eq. repeat split.
Qed.

(** ** Loading the sidenav flag *)

Lemma initialize_isSidenavOpen store path :
  isSidenavOpen (initialize store path) =
    match store !! SIDENAV_OPEN_KEY with
    | Some saved => String.eqb saved "true"
    | None => true
    end.
Proof.
  unfold initialize, onMounted, Storage.getItem. cbn.
  destruct (store !! SIDENAV_OPEN_KEY) as [saved|]; [|reflexivity].
  apply set_isSidenavOpen_value.
Qed.

(** C6.  On load the flag is the result of comparing the stored string
    with ["true"]: stored ["true"] gives [true], stored ["false"] gives
    [false], no stored value keeps the default [true], and any other
    stored string gives [false]; loading is a total function and has no
    error outcome. *)
Theorem initialize_restores_sidenav (store : gmap string string) (path : string) :
  (store !! SIDENAV_OPEN_KEY = Some "true" →
     isSidenavOpen (initialize store path) = true)
  ∧ (store !! SIDENAV_OPEN_KEY = Some "false" →
     isSidenavOpen (initialize store path) = false)
  ∧ (store !! SIDENAV_OPEN_KEY = None →
     isSidenavOpen (initialize store path) = true)
  ∧ (∀ saved, store !! SIDENAV_OPEN_KEY = Some saved → saved ≠ "true" →
     isSidenavOpen (initialize store path) = false).
Proof.
  rewrite initialize_isSidenavOpen. repeat split.
  - intros ->. reflexivity.
  - intros ->. reflexivity.
  - intros ->. reflexivity.
  - intros saved -> Hne. apply String.eqb_neq, Hne.
Qed.

Lemma initialize_restores_sidenav_witness :
  isSidenavOpen (initialize {[SIDENAV_OPEN_KEY := "true"]} "/") = true
  ∧ isSidenavOpen (initialize {[SIDENAV_OPEN_KEY := "false"]} "/") = false
  ∧ isSidenavOpen (initialize ∅ "/") = true
  ∧ isSidenavOpen (initialize {[SIDENAV_OPEN_KEY := "banana"]} "/") = false.
Proof.
  split; [|split; [|split]].
  - destruct (initialize_restores_sidenav {[SIDENAV_OPEN_KEY := "true"]} "/")
      as (H & _). apply H. reflexivity.
  - destruct (initialize_restores_sidenav {[SIDENAV_OPEN_KEY := "false"]} "/")
      as (_ & H & _). apply H. reflexivity.
  - destruct (initialize_restores_sidenav ∅ "/") as (_ & _ & H & _).
    apply H. reflexivity.
  - destruct (initialize_restores_sidenav {[SIDENAV_OPEN_KEY := "banana"]} "/")
      as (_ & _ & _ & H).
    apply (H "banana"); [reflexivity | discriminate].
Defined.

(** ** Loading and the storage area *)

Lemma initialize_unfold store path :
  initialize store path =
    match store !! SIDENAV_OPEN_KEY with
    | Some saved => set_isSidenavOpen (String.eqb saved "true") (setup store path)
    | None => setup store path
    end.
Proof. reflexivity. Qed.

(** C7, as the code has it.  Loading leaves the storage area alone when
    nothing is stored under the sidenav key or when ["true"] is stored.
    For any other stored string the restored flag differs from the
    default, the sidenav watcher runs, and ["false"] is stored under the
    sidenav key: that is the only call of [setItem], and no other key
    is touched. *)
Theorem initialize_storage (store : gmap string string) (path : string) :
  (store !! SIDENAV_OPEN_KEY = None ∨ store !! SIDENAV_OPEN_KEY = Some "true" →
     localStorage (initialize store path) = store
     ∧ storage_log (initialize store path) = [])
  ∧ (∀ saved, store !! SIDENAV_OPEN_KEY = Some saved → saved ≠ "true" →
       localStorage (initialize store path) = <[SIDENAV_OPEN_KEY := "false"]> store
       ∧ storage_log (initialize store path) = [(SIDENAV_OPEN_KEY, "false")])
  ∧ (∀ k, k ≠ SIDENAV_OPEN_KEY →
       localStorage (initialize store path) !! k = store !! k).
Proof.
  rewrite initialize_unfold. split; [|split].
  - intros [-> | ->]; split; reflexivity.
  - intros saved -> Hne. apply String.eqb_neq in Hne. rewrite Hne.
    split; reflexivity.
  - intros k Hk. destruct (store !! SIDENAV_OPEN_KEY) as [saved|]; [|reflexivity].
    destruct (String.eqb saved "true"); [reflexivity|].
    cbn. unfold Storage.setItem. apply lookup_insert_ne.
    intros E. apply Hk. symmetry. exact E.
Qed.

Lemma initialize_storage_witness :
  (localStorage (initialize {[SIDENAV_OPEN_KEY := "true"]} "/")
     = {[SIDENAV_OPEN_KEY := "true"]}
   ∧ storage_log (initialize {[SIDENAV_OPEN_KEY := "true"]} "/") = [])
  ∧ (localStorage (initialize {[SIDENAV_OPEN_KEY := "off"; "demo.theme" := "dark"]} "/")
       = <[SIDENAV_OPEN_KEY := "false"]>
           {[SIDENAV_OPEN_KEY := "off"; "demo.theme" := "dark"]}
     ∧ storage_log (initialize {[SIDENAV_OPEN_KEY := "off"; "demo.theme" := "dark"]} "/")
       = [(SIDENAV_OPEN_KEY, "false")])
  ∧ localStorage (initialize {[SIDENAV_OPEN_KEY := "off"; "demo.theme" := "dark"]} "/")
      !! "demo.theme"
    = ({[SIDENAV_OPEN_KEY := "off"; "demo.theme" := "dark"]} : gmap string string)
      !! "demo.theme".
Proof.
  split; [|split].
  - destruct (initialize_storage {[SIDENAV_OPEN_KEY := "true"]} "/") as (H & _).
    apply H. right. reflexivity.
  - destruct (initialize_storage
                {[SIDENAV_OPEN_KEY := "off"; "demo.theme" := "dark"]} "/")
      as (_ & H & _).
    apply (H "off"); [reflexivity | discriminate].
  - destruct (initialize_storage
                {[SIDENAV_OPEN_KEY := "off"; "demo.theme" := "dark"]} "/")
      as (_ & _ & H).
    apply H. discriminate.
Defined.

(** Loading a corrupted value overwrites it: storage is written on load. *)
Lemma initialize_writes_back :
  let store : gmap string string := {[SIDENAV_OPEN_KEY := "banana"]} in
  localStorage (initialize store "/") = {[SIDENAV_OPEN_KEY := "false"]}
  ∧ localStorage (initialize store "/") ≠ store
  ∧ storage_log (initialize store "/") = [(SIDENAV_OPEN_KEY, "false")]
  ∧ storage_log (initialize store "/") ≠ [].
Proof.
  intros store.
  assert (localStorage (initialize store "/") = {[SIDENAV_OPEN_KEY := "false"]})
    as Hs.
  { apply map_eq. intros k. vm_compute. reflexivity. }
  split; [exact Hs|]. split; [|split; [reflexivity | discriminate]].
  rewrite Hs. intros H.
  apply (f_equal (λ m : gmap string string, m !! SIDENAV_OPEN_KEY)) in H.
  vm_compute in H. discriminate.
Qed.

(** ** Route changes within one section *)

(** C8.  Navigating within one section changes no flag: in every
    reachable state, when the old path is the current route and the new
    path is in the same section (or both are in none), the sections
    after the route change are the sections before it.  The watcher
    assigns [true] to the flag of that section, which is set already
    because the section is the active one. *)
Theorem onRouteChange_same_section (oldPath newPath : string) (st : App) :
  reachable st → oldPath = route_path st →
  getSectionForRoute oldPath = getSectionForRoute newPath →
  sections (onRouteChange oldPath newPath st) = sections st
  ∧ sections (navigate newPath st) = sections st.
Proof.
  intros Hst -> Heq.
  assert (sections (onRouteChange (route_path st) newPath st) = sections st) as H.
  { cbn -[routeWatcher]. apply routeWatcher_same_section; [exact Heq|].
    intros s Hs. apply (reachable_active_open st Hst).
    unfold activeSection. congruence. }
  split; [exact H|]. unfold navigate.
  destruct (String.eqb _ _); [reflexivity | exact H].
Qed.

Lemma onRouteChange_same_section_witness :
  let st := toggleSection "practiceGuided" (initialize ∅ "/theme") in
  reachable st
  ∧ "/theme" = route_path st
  ∧ getSectionForRoute "/theme" = getSectionForRoute "/devtools"
  ∧ sections (onRouteChange "/theme" "/devtools" st) = sections st
  ∧ sections (navigate "/devtools" st) = sections st.
Proof.
  intros st.
  assert (reachable st) as Hst
    by apply reach_toggleSection, reach_initialize.
  assert ("/theme" = route_path st) as Hroute by reflexivity.
  assert (getSectionForRoute "/theme" = getSectionForRoute "/devtools") as Heq
    by reflexivity.
  split; [exact Hst|]. split; [exact Hroute|]. split; [exact Heq|].
  exact (onRouteChange_same_section "/theme" "/devtools" st Hst Hroute Heq).
Defined.

(** ** The sections after start-up *)

(** The immediate run of the route watcher has no old path: it opens the
    section of the path and does nothing else. *)
Lemma routeWatcher_immediate (path : string) (secs : gmap string bool) :
  routeWatcher path None secs =
    match getSectionForRoute path with
    | Some s => <[s := true]> secs
    | None => secs
    end.
Proof. reflexivity. Qed.

Lemma routeWatcher_immediate_keeps_open (path : string) (secs : gmap string bool)
    (id : string) :
  secs !! id = Some true → routeWatcher path None secs !! id = Some true.
Proof.
  intros H. rewrite routeWatcher_lookup. cbn.
  repeat case_bool_decide; try done.
Qed.

(** C9.  The first run of the route watcher, made by the start-up with
    no previous path, takes the old section to be none: it clears no
    flag, whatever the flags are, and only opens the section of the
    current route.  So right after start-up each of the three sections
    is open exactly if it contains the current route. *)
Theorem initialize_sections (store : gmap string string) (path : string) :
  (∀ secs : gmap string bool,
     routeWatcher path None secs =
       match getSectionForRoute path with
       | Some s => <[s := true]> secs
       | None => secs
       end)
  ∧ (∀ (secs : gmap string bool) id,
       secs !! id = Some true → routeWatcher path None secs !! id = Some true)
  ∧ sections (initialize store path) =
      match getSectionForRoute path with
      | Some s => <[s := true]> initial_sections
      | None => initial_sections
      end
  ∧ (∀ id, id ∈ ["demos"; "practiceGuided"; "practiceMinimal"] →
       sections (initialize store path) !! id
       = Some (bool_decide (activeSection (initialize store path) = Some id))).
Proof.
  split; [exact (routeWatcher_immediate path)|].
  split; [exact (routeWatcher_immediate_keeps_open path)|].
  split.
  - unfold initialize. rewrite onMounted_sections. reflexivity.
  - intros id Hid. unfold activeSection, initialize.
    rewrite onMounted_sections, onMounted_route. cbn -[routeWatcher].
    rewrite routeWatcher_lookup. cbn.
    case_bool_decide as Hact; [reflexivity|].
    case_bool_decide; [done|].
    repeat (apply elem_of_cons in Hid as [-> | Hid]); try reflexivity.
    by apply elem_of_nil in Hid.
Qed.

Lemma initialize_sections_witness :
  let st := initialize ∅ "/practice/minimal/display-name" in
  "practiceMinimal" ∈ ["demos"; "practiceGuided"; "practiceMinimal"]
  ∧ sections st !! "practiceMinimal"
    = Some (bool_decide (activeSection st = Some "practiceMinimal"))
  ∧ "demos" ∈ ["demos"; "practiceGuided"; "practiceMinimal"]
  ∧ sections st !! "demos" = Some (bool_decide (activeSection st = Some "demos"))
  ∧ ({["demos" := true]} : gmap string bool) !! "demos" = Some true
  ∧ routeWatcher "/practice/minimal/display-name" None {["demos" := true]} !! "demos"
    = Some true.
Proof.
  intros st.
  destruct (initialize_sections ∅ "/practice/minimal/display-name")
    as (_ & Hkeep & _ & Hflags).
  assert ("practiceMinimal" ∈ ["demos"; "practiceGuided"; "practiceMinimal"]) as H1
    by (apply list_elem_of_In; cbn; tauto).
  assert ("demos" ∈ ["demos"; "practiceGuided"; "practiceMinimal"]) as H2
    by (apply list_elem_of_In; cbn; tauto).
  split; [exact H1|]. split; [exact (Hflags _ H1)|].
  split; [exact H2|]. split; [exact (Hflags _ H2)|].
  split; [reflexivity|]. apply Hkeep. reflexivity.
Defined.

(** ** Separation of the operations *)

(** C10.  Toggling the sidenav changes no section flag; toggling a
    section and changing the route change neither the sidenav flag nor
    the storage area, and make no call of [setItem]. *)
Theorem operations_disjoint :
  (∀ st, sections (toggleSidenav st) = sections st)
  ∧ (∀ section st,
       isSidenavOpen (toggleSection section st) = isSidenavOpen st
       ∧ localStorage (toggleSection section st) = localStorage st
       ∧ storage_log (toggleSection section st) = storage_log st)
  ∧ (∀ oldPath newPath st,
       isSidenavOpen (onRouteChange oldPath newPath st) = isSidenavOpen st
       ∧ localStorage (onRouteChange oldPath newPath st) = localStorage st
       ∧ storage_log (onRouteChange oldPath newPath st) = storage_log st)
  ∧ (∀ newPath st,
       isSidenavOpen (navigate newPath st) = isSidenavOpen st
       ∧ localStorage (navigate newPath st) = localStorage st
       ∧ storage_log (navigate newPath st) = storage_log st).
Proof.
  split; [|split; [|split]].
  - intros st. apply set_isSidenavOpen_sections.
  - intros section st. unfold toggleSection.
    case_bool_decide; repeat split.
  - intros oldPath newPath st. repeat split.
  - intros newPath st. unfold navigate.
    destruct (String.eqb _ _); repeat split.
Qed.

(** * Further properties of the sidenav *)

(** ** Reloading the page *)

Lemma toggleSection_frame section st :
  isSidenavOpen (toggleSection section st) = isSidenavOpen st
  ∧ localStorage (toggleSection section st) = localStorage st.
Proof. unfold toggleSection. case_bool_decide; split; reflexivity. Qed.

Lemma reachable_sidenav_synced st : reachable st → sidenav_synced st.
Proof.
  induction 1 as [store path | st oldPath newPath _ IH
                  | st section _ IH | st _ IH]; unfold sidenav_synced in *.
  - rewrite initialize_unfold.
    destruct (store !! SIDENAV_OPEN_KEY) as [saved|] eqn:Hs.
    + destruct (String.eqb saved "true") eqn:Ht; cbn.
      * rewrite Hs. exact Ht.
      * unfold Storage.setItem. rewrite lookup_insert_eq. reflexivity.
    + cbn. rewrite Hs. reflexivity.
  - exact IH.
  - destruct (toggleSection_frame section st) as [-> ->]. exact IH.
  - rewrite toggleSidenav_unfold. cbn. rewrite lookup_insert_eq.
    destruct (isSidenavOpen st); reflexivity.
Qed.

(** X1.  In every reachable state the storage area holds what a reload
    needs: starting the page again from the current storage gives the
    sidenav flag its current value. *)
Theorem reload_restores_sidenav (st : App) (path : string) :
  reachable st →
  isSidenavOpen (initialize (localStorage st) path) = isSidenavOpen st.
Proof.
  intros Hst. apply reachable_sidenav_synced in Hst.
  rewrite initialize_isSidenavOpen. unfold sidenav_synced in Hst.
  destruct (localStorage st !! SIDENAV_OPEN_KEY); congruence.
Qed.

Lemma reload_restores_sidenav_witness :
  let st := toggleSidenav (initialize {[SIDENAV_OPEN_KEY := "true"]} "/theme") in
  reachable st
  ∧ isSidenavOpen st = false
  ∧ isSidenavOpen (initialize (localStorage st) "/") = isSidenavOpen st.
Proof.
  intros st.
  assert (reachable st) as Hst by apply reach_toggleSidenav, reach_initialize.
  split; [exact Hst|]. split; [reflexivity|].
  apply (reload_restores_sidenav st "/" Hst).
Defined.

(** ** Sections under navigation alone *)

Lemma initial_sections_lookup id :
  id ∈ section_names → initial_sections !! id = Some false.
Proof.
  intros Hid. unfold section_names in Hid.
  repeat (apply elem_of_cons in Hid as [-> | Hid]); try reflexivity.
  by apply elem_of_nil in Hid.
Qed.

Lemma only_active_open_initialize store path :
  only_active_open (initialize store path).
Proof.
  intros id Hid. unfold activeSection, initialize.
  rewrite onMounted_sections, onMounted_route. cbn -[routeWatcher].
  rewrite routeWatcher_lookup. cbn.
  case_bool_decide; [reflexivity|].
  case_bool_decide; [done|]. apply initial_sections_lookup, Hid.
Qed.

Lemma only_active_open_navigate newPath st :
  only_active_open st → only_active_open (navigate newPath st).
Proof.
  intros Hst id Hid. unfold navigate.
  destruct (String.eqb newPath (route_path st)); [apply Hst, Hid|].
  unfold activeSection. cbn -[routeWatcher]. rewrite routeWatcher_lookup. cbn.
  case_bool_decide; [reflexivity|].
  case_bool_decide as Hold; [reflexivity|].
  rewrite (Hst id Hid). unfold activeSection.
  rewrite bool_decide_eq_false_2 by exact Hold. reflexivity.
Qed.

Lemma only_active_open_navigations paths st :
  only_active_open st → only_active_open (navigations paths st).
Proof.
  revert st. induction paths as [|p paths IH]; intros st Hst; [exact Hst|].
  apply IH, only_active_open_navigate, Hst.
Qed.

(** X2.  As long as no section is toggled by hand the sidenav is an
    accordion: after start-up and any sequence of navigations, each of
    the three sections is open exactly if it contains the current
    route, so at most one is open. *)
Theorem navigation_keeps_only_active_open
    (store : gmap string string) (path : string) (paths : list string) (id : string) :
  id ∈ section_names →
  let st := navigations paths (initialize store path) in
  sections st !! id = Some (bool_decide (activeSection st = Some id)).
Proof.
  intros Hid st.
  apply (only_active_open_navigations paths), Hid.
  apply only_active_open_initialize.
Qed.

Lemma navigation_keeps_only_active_open_witness :
  let st := navigations ["/theme"; "/practice/guided/theme"; "/practice/minimal/theme"]
              (initialize ∅ "/") in
  "practiceGuided" ∈ section_names
  ∧ sections st !! "practiceGuided" = Some false
  ∧ sections st !! "practiceMinimal" = Some true.
Proof.
  intros st.
  assert ("practiceGuided" ∈ section_names) as H1
    by (apply list_elem_of_In; cbn; tauto).
  assert ("practiceMinimal" ∈ section_names) as H2
    by (apply list_elem_of_In; cbn; tauto).
  split; [exact H1|]. split.
  - exact (navigation_keeps_only_active_open ∅ "/"
             ["/theme"; "/practice/guided/theme"; "/practice/minimal/theme"]
             "practiceGuided" H1).
  - exact (navigation_keeps_only_active_open ∅ "/"
             ["/theme"; "/practice/guided/theme"; "/practice/minimal/theme"]
             "practiceMinimal" H2).
Defined.

(** ** Toggling a section twice *)

Lemma routeWatcher_defined newPath oldPath (secs : gmap string bool) id :
  is_Some (secs !! id) → is_Some (routeWatcher newPath oldPath secs !! id).
Proof.
  intros H. rewrite routeWatcher_lookup.
  repeat case_bool_decide; eauto.
Qed.

Lemma reachable_sections_defined st : reachable st → sections_defined st.
Proof.
  induction 1 as [store path | st oldPath newPath _ IH
                  | st section _ IH | st _ IH]; intros id Hid.
  - unfold initialize. rewrite onMounted_sections. cbn -[routeWatcher].
    apply routeWatcher_defined. rewrite initial_sections_lookup by exact Hid.
    eauto.
  - cbn -[routeWatcher]. apply routeWatcher_defined, IH, Hid.
  - unfold toggleSection. case_bool_decide; [apply IH, Hid|]. cbn.
    destruct (decide (section = id)) as [->|Hne].
    + rewrite lookup_insert_eq. eauto.
    + rewrite lookup_insert_ne by exact Hne. apply IH, Hid.
  - unfold toggleSidenav. rewrite set_isSidenavOpen_sections. apply IH, Hid.
Qed.

Lemma toggleSection_twice section st :
  is_Some (sections st !! section) →
  toggleSection section (toggleSection section st) = st.
Proof.
  intros [b Hb]. unfold toggleSection at 2.
  case_bool_decide as Hact; [apply toggleSection_active, Hact|].
  unfold toggleSection, activeSection. cbn.
  rewrite bool_decide_eq_false_2 by exact Hact.
  unfold JS.flag. rewrite lookup_insert_eq, Hb. cbn.
  rewrite negb_involutive, insert_insert_eq, (insert_id _ _ _ Hb).
  destruct st; reflexivity.
Qed.

(** X3.  In a reachable state, clicking the toggle of one of the three
    sections twice gives back the very same state: the section flags are
    always defined booleans, the click on the active section does
    nothing, and the click on another section negates its flag. *)
Theorem toggleSection_involution (st : App) (section : string) :
  reachable st → section ∈ section_names →
  toggleSection section (toggleSection section st) = st.
Proof.
  intros Hst Hsec. apply toggleSection_twice.
  apply (reachable_sections_defined st Hst), Hsec.
Qed.

Lemma toggleSection_involution_witness :
  let st := navigate "/display-name" (initialize ∅ "/") in
  reachable st
  ∧ "practiceMinimal" ∈ section_names
  ∧ toggleSection "practiceMinimal" (toggleSection "practiceMinimal" st) = st.
Proof.
  intros st.
  assert (reachable st) as Hst by apply reachable_navigate, reach_initialize.
  assert ("practiceMinimal" ∈ section_names) as Hsec
    by (apply list_elem_of_In; cbn; tauto).
  split; [exact Hst|]. split; [exact Hsec|].
  exact (toggleSection_involution st "practiceMinimal" Hst Hsec).
Defined.

(** ** Repeated toggles of the sidenav *)

(** X4.  Every toggle of the sidenav is written through: [n] toggles in
    a row make exactly [n] calls of [setItem], all under the sidenav
    key, and leave the flag as it was if [n] is even and negated if [n]
    is odd. *)
Theorem toggleSidenav_iter (st : App) (n : nat) :
  isSidenavOpen (Nat.iter n toggleSidenav st)
    = (if Nat.even n then isSidenavOpen st else negb (isSidenavOpen st))
  ∧ ∃ calls : list (string * string),
      storage_log (Nat.iter n toggleSidenav st) = (calls ++ storage_log st)%list
      ∧ List.length calls = n
      ∧ ∀ c, c ∈ calls → c.1 = SIDENAV_OPEN_KEY.
Proof.
  induction n as [|n [IHflag (calls & IHlog & IHlen & IHkey)]].
  - split; [reflexivity|]. exists []. repeat split.
    intros c Hc. by apply elem_of_nil in Hc.
  - rewrite Nat.iter_succ, toggleSidenav_unfold. cbn [isSidenavOpen storage_log].
    split.
    + rewrite IHflag, Nat.even_succ, <- Nat.negb_even.
      destruct (Nat.even n); cbn; [reflexivity | apply negb_involutive].
    + exists ((SIDENAV_OPEN_KEY,
               JS.String_of (negb (isSidenavOpen (Nat.iter n toggleSidenav st))))
              :: calls).
      rewrite IHlog. split; [reflexivity|]. split; [cbn; congruence|].
      intros c Hc. apply elem_of_cons in Hc as [-> | Hc]; [reflexivity|].
      apply IHkey, Hc.
Qed.

(** ** Order of the operations *)

(** X5.  The sidenav toggle and the operations on the sections act on
    separate parts of the state, so they can be done in either order:
    toggling the sidenav before or after a section toggle, a route
    change or a navigation gives the same state. *)
Theorem toggleSidenav_commutes :
  (∀ section st,
     toggleSidenav (toggleSection section st)
     = toggleSection section (toggleSidenav st))
  ∧ (∀ oldPath newPath st,
       toggleSidenav (onRouteChange oldPath newPath st)
       = onRouteChange oldPath newPath (toggleSidenav st))
  ∧ (∀ newPath st,
       toggleSidenav (navigate newPath st) = navigate newPath (toggleSidenav st)).
Proof.
  split; [|split].
  - intros section st. rewrite !toggleSidenav_unfold.
    unfold toggleSection, activeSection. cbn.
    case_bool_decide; reflexivity.
  - intros oldPath newPath st. rewrite !toggleSidenav_unfold. reflexivity.
  - intros newPath st. rewrite !toggleSidenav_unfold. unfold navigate. cbn.
    destruct (String.eqb newPath (route_path st)); reflexivity.
Qed.

(** ** The links of the sidenav *)

Lemma navigate_route newPath st : route_path (navigate newPath st) = newPath.
Proof.
  unfold navigate. destruct (String.eqb_spec newPath (route_path st)) as [->|_];
    reflexivity.
Qed.

(** X6.  The sidenav, the route table and [getSectionForRoute] agree:
    every link targets a registered route and sits in the block of the
    section that [getSectionForRoute] gives for its path (the home link
    in none), every route has a link, and so after following a link
    from any reachable state the block that contains the link is the
    active section and is open. *)
Theorem nav_links_consistent :
  (∀ sec path, (sec, path) ∈ nav_links →
     getSectionForRoute path = sec ∧ path ∈ route_paths)
  ∧ (∀ path, path ∈ route_paths → ∃ sec, (sec, path) ∈ nav_links)
  ∧ (∀ sec path s st, (sec, path) ∈ nav_links → sec = Some s → reachable st →
       activeSection (navigate path st) = Some s
       ∧ sections (navigate path st) !! s = Some true).
Proof.
  assert (∀ sec path, (sec, path) ∈ nav_links →
            getSectionForRoute path = sec ∧ path ∈ route_paths) as Hlinks.
  { intros sec path H. apply list_elem_of_In in H. cbn in H.
    repeat (destruct H as [[= <- <-] | H];
            [split; [reflexivity | apply list_elem_of_In; cbn; tauto]|]).
    destruct H. }
  split; [exact Hlinks|]. split.
  - intros path H. apply list_elem_of_In in H. cbn in H.
    repeat (destruct H as [<- | H];
            [eexists; apply list_elem_of_In; cbn; eauto 12|]).
    destruct H.
  - intros sec path s st Hin -> Hst.
    destruct (Hlinks _ _ Hin) as [Hsec _].
    assert (activeSection (navigate path st) = Some s) as Hact.
    { unfold activeSection. rewrite navigate_route. exact Hsec. }
    split; [exact Hact|].
    apply (reachable_active_open _ (reachable_navigate path st Hst)), Hact.
Qed.

Lemma nav_links_consistent_witness :
  let st := toggleSection "practiceGuided" (initialize ∅ "/theme") in
  (Some "practiceGuided", "/practice/guided/display-name") ∈ nav_links
  ∧ "/devtools" ∈ route_paths
  ∧ reachable st
  ∧ getSectionForRoute "/practice/guided/display-name" = Some "practiceGuided"
  ∧ (∃ sec, (sec, "/devtools") ∈ nav_links)
  ∧ sections (navigate "/practice/guided/display-name" st) !! "practiceGuided"
    = Some true.
Proof.
  intros st.
  assert ((Some "practiceGuided", "/practice/guided/display-name") ∈ nav_links)
    as Hin by (apply list_elem_of_In; cbn; tauto).
  assert ("/devtools" ∈ route_paths) as Hroute
    by (apply list_elem_of_In; cbn; tauto).
  assert (reachable st) as Hst by apply reach_toggleSection, reach_initialize.
  destruct nav_links_consistent as (Hlinks & Hroutes & Hfollow).
  split; [exact Hin|]. split; [exact Hroute|]. split; [exact Hst|].
  split; [exact (proj1 (Hlinks _ _ Hin))|].
  split; [exact (Hroutes _ Hroute)|].
  exact (proj2 (Hfollow _ _ "practiceGuided" st Hin eq_refl Hst)).
Defined.

(** * The theme page *)

Lemma theme_mount_fields (store : gmap string string) (page : option string) :
  ThemeDemo.theme (ThemeDemo.mount store page)
    = default "light" (store !! "demo.theme")
  ∧ ThemeDemo.dataset_theme (ThemeDemo.mount store page)
    = Some (default "light" (store !! "demo.theme"))
  ∧ ThemeDemo.localStorage (ThemeDemo.mount store page) = store.
Proof.
  unfold ThemeDemo.mount, ThemeDemo.turn, ThemeDemo.onMounted, ThemeDemo.flush,
    Storage.getItem.
  cbn. destruct (store !! "demo.theme") as [saved|] eqn:Hs; cbn.
  - destruct (String.eqb saved "light"); cbn; repeat split.
    unfold Storage.setItem. apply insert_id, Hs.
  - repeat split.
Qed.

(** X7.  Mounting the theme page takes the stored theme as it is, or
    the default [light] when nothing is stored, puts it on the page,
    and leaves the contents of the storage area as they were, although
    the watcher stores a restored theme that is not [light] once more. *)
Theorem theme_mount_restores (store : gmap string string) (page : option string) :
  (store !! "demo.theme" = None →
     ThemeDemo.theme (ThemeDemo.mount store page) = "light")
  ∧ (∀ saved, store !! "demo.theme" = Some saved →
       ThemeDemo.theme (ThemeDemo.mount store page) = saved)
  ∧ ThemeDemo.dataset_theme (ThemeDemo.mount store page)
    = Some (ThemeDemo.theme (ThemeDemo.mount store page))
  ∧ ThemeDemo.localStorage (ThemeDemo.mount store page) = store.
Proof.
  destruct (theme_mount_fields store page) as (Ht & Hd & Hs).
  rewrite Ht, Hd, Hs. repeat split.
  - intros ->. reflexivity.
  - intros saved ->. reflexivity.
Qed.

Lemma theme_mount_restores_witness :
  ThemeDemo.theme (ThemeDemo.mount ∅ None) = "light"
  ∧ ThemeDemo.theme (ThemeDemo.mount {["demo.theme" := "banana"]} (Some "dark"))
    = "banana".
Proof.
  split.
  - destruct (theme_mount_restores ∅ None) as (H & _). apply H. reflexivity.
  - destruct (theme_mount_restores {["demo.theme" := "banana"]} (Some "dark"))
      as (_ & H & _).
    apply H. reflexivity.
Defined.

Lemma toggleTheme_changes (th : string) :
  String.eqb (if String.eqb th "light" then "dark" else "light") th = false.
Proof.
  destruct (String.eqb_spec th "light") as [->|Hne]; [reflexivity|].
  apply String.eqb_neq. congruence.
Qed.

Lemma theme_toggle_fields (st : ThemeDemo.t) :
  let th := if String.eqb (ThemeDemo.theme st) "light" then "dark" else "light" in
  ThemeDemo.handle ThemeDemo.ClickToggle st
  = {| ThemeDemo.theme := th;
       ThemeDemo.dataset_theme := Some th;
       ThemeDemo.localStorage := <["demo.theme" := th]> (ThemeDemo.localStorage st) |}.
Proof.
  cbn. unfold ThemeDemo.turn, ThemeDemo.flush, ThemeDemo.toggleTheme. cbn.
  rewrite toggleTheme_changes. reflexivity.
Qed.

Lemma theme_reset_fields (st : ThemeDemo.t) :
  ThemeDemo.handle ThemeDemo.ClickReset st
  = {| ThemeDemo.theme := "light";
       ThemeDemo.dataset_theme := Some "light";
       ThemeDemo.localStorage :=
         if String.eqb (ThemeDemo.theme st) "light"
         then delete "demo.theme" (ThemeDemo.localStorage st)
         else <["demo.theme" := "light"]> (ThemeDemo.localStorage st) |}.
Proof.
  unfold ThemeDemo.handle, ThemeDemo.turn, ThemeDemo.flush, ThemeDemo.resetTheme,
    ThemeDemo.themeWatcher, ThemeDemo.applyThemeToPage, ThemeDemo.set_theme,
    Storage.setItem, Storage.removeItem.
  cbn [ThemeDemo.theme ThemeDemo.dataset_theme ThemeDemo.localStorage].
  rewrite String.eqb_sym.
  destruct (String.eqb (ThemeDemo.theme st) "light"); [reflexivity|].
  rewrite insert_delete_eq. reflexivity.
Qed.

Lemma theme_synced_mount store page : theme_synced (ThemeDemo.mount store page).
Proof.
  destruct (theme_mount_fields store page) as (Ht & Hd & Hs).
  unfold theme_synced. rewrite Ht, Hd, Hs. split; [reflexivity|].
  destruct (store !! "demo.theme"); [left | right]; done.
Qed.

Lemma theme_synced_handle ev st : theme_synced (ThemeDemo.handle ev st).
Proof.
  destruct ev.
  - rewrite theme_toggle_fields. split; [reflexivity|]. left. cbn.
    apply lookup_insert_eq.
  - rewrite theme_reset_fields. split; [reflexivity|]. cbn.
    destruct (String.eqb (ThemeDemo.theme st) "light").
    + right. split; [apply lookup_delete_eq | reflexivity].
    + left. apply lookup_insert_eq.
Qed.

Lemma theme_synced_run evs st : theme_synced st → theme_synced (ThemeDemo.run evs st).
Proof.
  revert st. induction evs as [|ev evs IH]; intros st Hst; [exact Hst|].
  apply IH, theme_synced_handle.
Qed.

Lemma theme_synced_reload st page :
  theme_synced st →
  ThemeDemo.theme (ThemeDemo.mount (ThemeDemo.localStorage st) page)
  = ThemeDemo.theme st.
Proof.
  intros [_ Hs].
  destruct (theme_mount_fields (ThemeDemo.localStorage st) page) as (-> & _).
  destruct Hs as [-> | [-> ->]]; reflexivity.
Qed.

(** X8.  Whatever is stored at the start and whatever buttons are
    clicked, the page attribute always shows the current theme, and
    loading the page again from the current storage gives the current
    theme back. *)
Theorem theme_page_and_storage_in_step
    (store : gmap string string) (page page' : option string)
    (evs : list ThemeDemo.event) :
  let st := ThemeDemo.run evs (ThemeDemo.mount store page) in
  ThemeDemo.dataset_theme st = Some (ThemeDemo.theme st)
  ∧ ThemeDemo.theme (ThemeDemo.mount (ThemeDemo.localStorage st) page')
    = ThemeDemo.theme st.
Proof.
  intros st.
  assert (theme_synced st) as Hst
    by apply theme_synced_run, theme_synced_mount.
  split; [exact (proj1 Hst) | apply theme_synced_reload, Hst].
Qed.

(** X9.  [Reset Preference] leaves the theme [light] on the page, but
    the stored preference is gone afterwards only if the theme was
    [light] already: otherwise the change of [theme] runs the watcher,
    which stores [light] after the removal.  Either way the next load
    starts with [light]. *)
Theorem theme_reset_behaviour (st : ThemeDemo.t) (page : option string) :
  let st' := ThemeDemo.handle ThemeDemo.ClickReset st in
  ThemeDemo.theme st' = "light"
  ∧ ThemeDemo.dataset_theme st' = Some "light"
  ∧ ThemeDemo.localStorage st' !! "demo.theme"
    = (if String.eqb (ThemeDemo.theme st) "light" then None else Some "light")
  ∧ ThemeDemo.theme (ThemeDemo.mount (ThemeDemo.localStorage st') page) = "light".
Proof.
  intros st'.
  assert (ThemeDemo.theme st' = "light") as Hth
    by (unfold st'; rewrite theme_reset_fields; reflexivity).
  split; [exact Hth|]. split; [|split].
  - unfold st'. rewrite theme_reset_fields. reflexivity.
  - unfold st'. rewrite theme_reset_fields. cbn.
    destruct (String.eqb (ThemeDemo.theme st) "light");
      [apply lookup_delete_eq | apply lookup_insert_eq].
  - transitivity (ThemeDemo.theme st'); [|exact Hth].
    apply theme_synced_reload, theme_synced_handle.
Qed.

(** X10.  [Toggle Theme] always ends on [light] or [dark], stored and
    shown on the page; a second toggle gives the first theme back
    exactly if that was [light] or [dark] (any other restored string is
    replaced by [light] for good). *)
Theorem theme_toggle_behaviour (st : ThemeDemo.t) :
  let st' := ThemeDemo.handle ThemeDemo.ClickToggle st in
  (ThemeDemo.theme st' = "light" ∨ ThemeDemo.theme st' = "dark")
  ∧ ThemeDemo.localStorage st' !! "demo.theme" = Some (ThemeDemo.theme st')
  ∧ ThemeDemo.dataset_theme st' = Some (ThemeDemo.theme st')
  ∧ (ThemeDemo.theme (ThemeDemo.handle ThemeDemo.ClickToggle st') = ThemeDemo.theme st
     ↔ ThemeDemo.theme st = "light" ∨ ThemeDemo.theme st = "dark").
Proof.
  intros st'. unfold st'. rewrite !theme_toggle_fields. cbn.
  split; [|split; [|split]].
  - destruct (String.eqb (ThemeDemo.theme st) "light"); [right | left]; reflexivity.
  - apply lookup_insert_eq.
  - reflexivity.
  - destruct (String.eqb_spec (ThemeDemo.theme st) "light") as [->|Hne]; cbn.
    + split; [left | ]; reflexivity.
    + split.
      * intros H. right. symmetry. exact H.
      * intros [H | H]; [contradiction | symmetry; exact H].
Qed.

(** * The display name page *)

Lemma name_mount_fields (store : gmap string string) :
  DisplayNameDemo.mount store
  = {| DisplayNameDemo.displayName := default "" (store !! "demo.displayName");
       DisplayNameDemo.wasRestored :=
         match store !! "demo.displayName" with Some _ => true | None => false end;
       DisplayNameDemo.localStorage := store |}.
Proof.
  unfold DisplayNameDemo.mount, DisplayNameDemo.turn, DisplayNameDemo.onMounted,
    DisplayNameDemo.flush, DisplayNameDemo.nameWatcher, DisplayNameDemo.setup,
    Storage.getItem, Storage.setItem.
  cbn [DisplayNameDemo.displayName DisplayNameDemo.wasRestored
       DisplayNameDemo.localStorage].
  destruct (store !! "demo.displayName") as [saved|] eqn:Hs;
    cbn [DisplayNameDemo.displayName DisplayNameDemo.wasRestored
         DisplayNameDemo.localStorage default]; [|reflexivity].
  destruct (String.eqb saved ""); [reflexivity|].
  rewrite (insert_id _ _ _ Hs). reflexivity.
Qed.

Lemma name_input_fields (text : string) (st : DisplayNameDemo.t) :
  DisplayNameDemo.handle (DisplayNameDemo.Input text) st
  = {| DisplayNameDemo.displayName := text;
       DisplayNameDemo.wasRestored := DisplayNameDemo.wasRestored st;
       DisplayNameDemo.localStorage :=
         if String.eqb text (DisplayNameDemo.displayName st)
         then DisplayNameDemo.localStorage st
         else <["demo.displayName" := text]> (DisplayNameDemo.localStorage st) |}.
Proof.
  unfold DisplayNameDemo.handle, DisplayNameDemo.turn, DisplayNameDemo.flush,
    DisplayNameDemo.input, DisplayNameDemo.nameWatcher, Storage.setItem.
  cbn [DisplayNameDemo.displayName DisplayNameDemo.wasRestored
       DisplayNameDemo.localStorage].
  destruct (String.eqb text (DisplayNameDemo.displayName st)); reflexivity.
Qed.

Lemma name_clear_fields (st : DisplayNameDemo.t) :
  DisplayNameDemo.handle DisplayNameDemo.ClickClear st
  = {| DisplayNameDemo.displayName := "";
       DisplayNameDemo.wasRestored := false;
       DisplayNameDemo.localStorage :=
         if String.eqb (DisplayNameDemo.displayName st) ""
         then delete "demo.displayName" (DisplayNameDemo.localStorage st)
         else <["demo.displayName" := ""]> (DisplayNameDemo.localStorage st) |}.
Proof.
  unfold DisplayNameDemo.handle, DisplayNameDemo.turn, DisplayNameDemo.flush,
    DisplayNameDemo.clearName, DisplayNameDemo.nameWatcher,
    Storage.setItem, Storage.removeItem.
  cbn [DisplayNameDemo.displayName DisplayNameDemo.wasRestored
       DisplayNameDemo.localStorage].
  rewrite String.eqb_sym.
  destruct (String.eqb (DisplayNameDemo.displayName st) ""); [reflexivity|].
  rewrite insert_delete_eq. reflexivity.
Qed.

Lemma name_synced_mount store : name_synced (DisplayNameDemo.mount store).
Proof.
  rewrite name_mount_fields. unfold name_synced. cbn.
  destruct (store !! "demo.displayName"); [left | right]; done.
Qed.

Lemma name_synced_handle ev st :
  name_synced st → name_synced (DisplayNameDemo.handle ev st).
Proof.
  intros Hst. destruct ev as [text|].
  - rewrite name_input_fields. unfold name_synced. cbn.
    destruct (String.eqb_spec text (DisplayNameDemo.displayName st)) as [->|_].
    + exact Hst.
    + left. apply lookup_insert_eq.
  - rewrite name_clear_fields. unfold name_synced. cbn.
    destruct (String.eqb (DisplayNameDemo.displayName st) "").
    + right. split; [apply lookup_delete_eq | reflexivity].
    + left. apply lookup_insert_eq.
Qed.

Lemma name_synced_run evs st :
  name_synced st → name_synced (DisplayNameDemo.run evs st).
Proof.
  revert st. induction evs as [|ev evs IH]; intros st Hst; [exact Hst|].
  apply IH, name_synced_handle, Hst.
Qed.

(** X11.  The display name survives a reload: after mounting the page
    on any storage and any sequence of edits and clears, mounting it
    again on the current storage shows the current name; the stored
    value is the current name, and nothing is stored only while the
    name is empty. *)
Theorem displayName_survives_reload
    (store : gmap string string) (evs : list DisplayNameDemo.event) :
  let st := DisplayNameDemo.run evs (DisplayNameDemo.mount store) in
  name_synced st
  ∧ DisplayNameDemo.displayName
      (DisplayNameDemo.mount (DisplayNameDemo.localStorage st))
    = DisplayNameDemo.displayName st.
Proof.
  intros st.
  assert (name_synced st) as Hst by apply name_synced_run, name_synced_mount.
  split; [exact Hst|]. rewrite name_mount_fields. cbn.
  destruct Hst as [-> | [-> ->]]; reflexivity.
Qed.

(** X12.  [Clear Saved Name] empties the input and hides the badge, but
    the key is gone from storage only if the name was empty already:
    for a non-empty name the watcher stores the empty string after the
    removal, which is just what deleting the text in the input leaves.
    After a reload the name is empty and the badge hidden either way,
    and [wasRestored] is set exactly if the name had not been empty. *)
Theorem clearName_behaviour (st : DisplayNameDemo.t) :
  let st' := DisplayNameDemo.handle DisplayNameDemo.ClickClear st in
  let reloaded := DisplayNameDemo.mount (DisplayNameDemo.localStorage st') in
  DisplayNameDemo.displayName st' = ""
  ∧ DisplayNameDemo.wasRestored st' = false
  ∧ DisplayNameDemo.restoredBadge st' = false
  ∧ DisplayNameDemo.localStorage st' !! "demo.displayName"
    = (if String.eqb (DisplayNameDemo.displayName st) "" then None else Some "")
  ∧ (DisplayNameDemo.displayName st ≠ "" →
     DisplayNameDemo.localStorage st'
     = DisplayNameDemo.localStorage
         (DisplayNameDemo.handle (DisplayNameDemo.Input "") st))
  ∧ DisplayNameDemo.displayName reloaded = ""
  ∧ DisplayNameDemo.restoredBadge reloaded = false
  ∧ DisplayNameDemo.wasRestored reloaded
    = negb (String.eqb (DisplayNameDemo.displayName st) "").
Proof.
  intros st' reloaded. unfold reloaded, st'.
  rewrite name_mount_fields, name_clear_fields, name_input_fields.
  unfold DisplayNameDemo.restoredBadge.
  cbn [DisplayNameDemo.displayName DisplayNameDemo.wasRestored
       DisplayNameDemo.localStorage].
  rewrite (String.eqb_sym "" (DisplayNameDemo.displayName st)).
  destruct (String.eqb_spec (DisplayNameDemo.displayName st) "") as [He|Hne].
  - rewrite lookup_delete_eq. repeat split. intros H. contradiction.
  - rewrite lookup_insert_eq. repeat split.
Qed.

Lemma clearName_behaviour_witness :
  let st := DisplayNameDemo.handle (DisplayNameDemo.Input "Ada")
              (DisplayNameDemo.mount ∅) in
  let st' := DisplayNameDemo.handle DisplayNameDemo.ClickClear st in
  DisplayNameDemo.displayName st ≠ ""
  ∧ DisplayNameDemo.localStorage st'
    = DisplayNameDemo.localStorage
        (DisplayNameDemo.handle (DisplayNameDemo.Input "") st)
  ∧ DisplayNameDemo.localStorage st' !! "demo.displayName" = Some "".
Proof.
  intros st st'.
  assert (DisplayNameDemo.displayName st ≠ "") as Hne by discriminate.
  destruct (clearName_behaviour st) as (_ & _ & _ & Hkey & Hsame & _).
  split; [exact Hne|]. split; [exact (Hsame Hne)|]. exact Hkey.
Defined.

(** * The comparison page *)

Ltac svl_unfold :=
  unfold SessionVsLocalDemo.handle, SessionVsLocalDemo.mount,
    SessionVsLocalDemo.turn, SessionVsLocalDemo.flush,
    SessionVsLocalDemo.onMounted, SessionVsLocalDemo.setup,
    SessionVsLocalDemo.clearBoth, SessionVsLocalDemo.clearSession,
    SessionVsLocalDemo.clearLocal, SessionVsLocalDemo.inputSession,
    SessionVsLocalDemo.inputLocal, SessionVsLocalDemo.sessionWatcher,
    SessionVsLocalDemo.localWatcher,
    Storage.getItem, Storage.setItem, Storage.removeItem;
  cbn [SessionVsLocalDemo.sessionValue SessionVsLocalDemo.localValue
       SessionVsLocalDemo.sessionStorage SessionVsLocalDemo.localStorage].

Ltac svl_cases :=
  repeat match goal with
    | |- context [String.eqb ?a ?b] =>
        destruct (String.eqb_spec a b);
        cbn [SessionVsLocalDemo.sessionValue SessionVsLocalDemo.localValue
             SessionVsLocalDemo.sessionStorage SessionVsLocalDemo.localStorage]
          in *
    end;
  try congruence.

Lemma svl_mount_fields (session store : gmap string string) :
  SessionVsLocalDemo.mount session store
  = {| SessionVsLocalDemo.sessionValue := default "" (session !! "demo.sessionValue");
       SessionVsLocalDemo.localValue := default "" (store !! "demo.localValue");
       SessionVsLocalDemo.sessionStorage := session;
       SessionVsLocalDemo.localStorage := store |}.
Proof.
  svl_unfold.
  destruct (session !! "demo.sessionValue") as [vs|] eqn:Hs;
    cbn [SessionVsLocalDemo.sessionValue SessionVsLocalDemo.localValue
         SessionVsLocalDemo.sessionStorage SessionVsLocalDemo.localStorage default];
    destruct (store !! "demo.localValue") as [vl|] eqn:Hl;
    cbn [SessionVsLocalDemo.sessionValue SessionVsLocalDemo.localValue
         SessionVsLocalDemo.sessionStorage SessionVsLocalDemo.localStorage default];
    svl_cases; subst;
    rewrite ?(insert_id _ _ _ Hs), ?(insert_id _ _ _ Hl); reflexivity.
Qed.

Lemma values_synced_mount session store :
  values_synced (SessionVsLocalDemo.mount session store).
Proof.
  rewrite svl_mount_fields. unfold values_synced. cbn.
  destruct (session !! "demo.sessionValue"), (store !! "demo.localValue");
    split; (left; reflexivity) || (right; split; reflexivity).
Qed.

Lemma values_synced_handle ev st :
  values_synced st → values_synced (SessionVsLocalDemo.handle ev st).
Proof.
  intros [Hs Hl]. unfold values_synced.
  destruct ev; svl_unfold; svl_cases; subst;
    rewrite ?lookup_insert_eq, ?lookup_delete_eq;
    split; first [assumption | left; reflexivity | right; split; reflexivity
                 | left; congruence | idtac].
Qed.

Lemma values_synced_run evs st :
  values_synced st → values_synced (SessionVsLocalDemo.run evs st).
Proof.
  revert st. induction evs as [|ev evs IH]; intros st Hst; [exact Hst|].
  apply IH, values_synced_handle, Hst.
Qed.

(** X13.  On the comparison page both values survive a reload, and in
    a new tab, where the session storage starts empty, the local value
    is still restored while the session value is empty again: whatever
    was stored at the start and whatever was typed or cleared since. *)
Theorem session_and_local_values_reload
    (session store : gmap string string) (evs : list SessionVsLocalDemo.event) :
  let st := SessionVsLocalDemo.run evs (SessionVsLocalDemo.mount session store) in
  let reloaded :=
    SessionVsLocalDemo.mount (SessionVsLocalDemo.sessionStorage st)
      (SessionVsLocalDemo.localStorage st) in
  let reopened := SessionVsLocalDemo.mount ∅ (SessionVsLocalDemo.localStorage st) in
  SessionVsLocalDemo.sessionValue reloaded = SessionVsLocalDemo.sessionValue st
  ∧ SessionVsLocalDemo.localValue reloaded = SessionVsLocalDemo.localValue st
  ∧ SessionVsLocalDemo.sessionValue reopened = ""
  ∧ SessionVsLocalDemo.localValue reopened = SessionVsLocalDemo.localValue st.
Proof.
  intros st reloaded reopened.
  assert (values_synced st) as [Hs Hl]
    by apply values_synced_run, values_synced_mount.
  unfold reloaded, reopened. rewrite !svl_mount_fields. cbn.
  rewrite lookup_empty. cbn.
  destruct Hs as [-> | [-> ->]], Hl as [-> | [-> ->]]; repeat split.
Qed.

(** X14.  [Clear Both] in one click does what [Clear Session] followed
    by [Clear Local] does in two, and leaves both values empty. *)
Theorem clearBoth_is_both_clears (st : SessionVsLocalDemo.t) :
  SessionVsLocalDemo.handle SessionVsLocalDemo.ClickClearBoth st
  = SessionVsLocalDemo.handle SessionVsLocalDemo.ClickClearLocal
      (SessionVsLocalDemo.handle SessionVsLocalDemo.ClickClearSession st)
  ∧ SessionVsLocalDemo.sessionValue
      (SessionVsLocalDemo.handle SessionVsLocalDemo.ClickClearBoth st) = ""
  ∧ SessionVsLocalDemo.localValue
      (SessionVsLocalDemo.handle SessionVsLocalDemo.ClickClearBoth st) = "".
Proof.
  svl_unfold. svl_cases; repeat split; congruence.
Qed.

(** * Pages and the shared storage area *)

(** X15.  Each page writes under its own key only: no click or input on
    the theme page, the display name page or the comparison page
    changes what is stored under any other key, so in particular they
    leave the stored sidenav flag alone. *)
Theorem pages_write_own_keys_only :
  (∀ ev st k, k ≠ "demo.theme" →
     ThemeDemo.localStorage (ThemeDemo.handle ev st) !! k
     = ThemeDemo.localStorage st !! k)
  ∧ (∀ ev st k, k ≠ "demo.displayName" →
       DisplayNameDemo.localStorage (DisplayNameDemo.handle ev st) !! k
       = DisplayNameDemo.localStorage st !! k)
  ∧ (∀ ev st k, k ≠ "demo.sessionValue" →
       SessionVsLocalDemo.sessionStorage (SessionVsLocalDemo.handle ev st) !! k
       = SessionVsLocalDemo.sessionStorage st !! k)
  ∧ (∀ ev st k, k ≠ "demo.localValue" →
       SessionVsLocalDemo.localStorage (SessionVsLocalDemo.handle ev st) !! k
       = SessionVsLocalDemo.localStorage st !! k).
Proof.
  split; [|split; [|split]].
  - intros ev st k Hk. destruct ev.
    + rewrite theme_toggle_fields. cbn. apply lookup_insert_ne. congruence.
    + rewrite theme_reset_fields. cbn.
      destruct (String.eqb (ThemeDemo.theme st) "light");
        [apply lookup_delete_ne | apply lookup_insert_ne]; congruence.
  - intros ev st k Hk. destruct ev as [text|].
    + rewrite name_input_fields. cbn.
      destruct (String.eqb text (DisplayNameDemo.displayName st));
        [reflexivity | apply lookup_insert_ne; congruence].
    + rewrite name_clear_fields. cbn.
      destruct (String.eqb (DisplayNameDemo.displayName st) "");
        [apply lookup_delete_ne | apply lookup_insert_ne]; congruence.
  - intros ev st k Hk.
    destruct ev; svl_unfold; svl_cases;
      rewrite ?lookup_insert_ne, ?lookup_delete_ne by congruence; reflexivity.
  - intros ev st k Hk.
    destruct ev; svl_unfold; svl_cases;
      rewrite ?lookup_insert_ne, ?lookup_delete_ne by congruence; reflexivity.
Qed.

Lemma pages_write_own_keys_only_witness :
  let store : gmap string string :=
    {[SIDENAV_OPEN_KEY := "false"; "demo.theme" := "dark"]} in
  SIDENAV_OPEN_KEY ≠ "demo.theme"
  ∧ ThemeDemo.localStorage
      (ThemeDemo.handle ThemeDemo.ClickReset (ThemeDemo.mount store None))
      !! SIDENAV_OPEN_KEY
    = ThemeDemo.localStorage (ThemeDemo.mount store None) !! SIDENAV_OPEN_KEY
  ∧ "demo.localValue" ≠ "demo.displayName"
  ∧ DisplayNameDemo.localStorage
      (DisplayNameDemo.handle (DisplayNameDemo.Input "Ada")
         (DisplayNameDemo.mount store))
      !! "demo.localValue"
    = DisplayNameDemo.localStorage (DisplayNameDemo.mount store) !! "demo.localValue"
  ∧ "demo.localValue" ≠ "demo.sessionValue"
  ∧ SessionVsLocalDemo.sessionStorage
      (SessionVsLocalDemo.handle SessionVsLocalDemo.ClickClearBoth
         (SessionVsLocalDemo.mount store store))
      !! "demo.localValue"
    = SessionVsLocalDemo.sessionStorage (SessionVsLocalDemo.mount store store)
      !! "demo.localValue"
  ∧ SIDENAV_OPEN_KEY ≠ "demo.localValue"
  ∧ SessionVsLocalDemo.localStorage
      (SessionVsLocalDemo.handle (SessionVsLocalDemo.InputLocal "x")
         (SessionVsLocalDemo.mount store store))
      !! SIDENAV_OPEN_KEY
    = SessionVsLocalDemo.localStorage (SessionVsLocalDemo.mount store store)
      !! SIDENAV_OPEN_KEY.
Proof.
  intros store.
  destruct pages_write_own_keys_only as (Ht & Hn & Hs & Hl).
  assert (SIDENAV_OPEN_KEY ≠ "demo.theme") as H1 by discriminate.
  assert ("demo.localValue" ≠ "demo.displayName") as H2 by discriminate.
  assert ("demo.localValue" ≠ "demo.sessionValue") as H3 by discriminate.
  assert (SIDENAV_OPEN_KEY ≠ "demo.localValue") as H4 by discriminate.
  split; [exact H1|]. split; [exact (Ht _ _ _ H1)|].
  split; [exact H2|]. split; [exact (Hn _ _ _ H2)|].
  split; [exact H3|]. split; [exact (Hs _ _ _ H3)|].
  split; [exact H4|]. exact (Hl _ _ _ H4).
Defined.

(** * The storage snapshot *)

(** A loop over the indices of a list, reading the list at each index,
    is a loop over the list. *)
Lemma foldl_seq_lookup {A B : Type} (g : option A → B → B) (l pre : list A) (b : B) :
  foldl (λ d i, g ((pre ++ l)%list !! i) d) b (seq (List.length pre) (List.length l))
  = foldl (λ d x, g (Some x) d) b l.
Proof.
  revert pre b. induction l as [|x l IH]; intros pre b; [reflexivity|].
  cbn [List.length seq foldl].
  rewrite (list_lookup_middle pre l x (List.length pre) eq_refl).
  specialize (IH (pre ++ [x])%list (g (Some x) b)).
  rewrite <- app_assoc, length_app in IH. cbn in IH.
  rewrite Nat.add_1_r in IH. exact IH.
Qed.

Lemma key_order_length (storage : gmap string string) (order : list string) :
  Storage.key_order storage order → List.length order = Storage.length storage.
Proof.
  unfold Storage.key_order, Storage.length. intros H.
  rewrite H, length_fmap. apply length_map_to_list.
Qed.

Lemma key_order_elem_of (storage : gmap string string) (order : list string)
    (k : string) :
  Storage.key_order storage order → k ∈ order ↔ is_Some (storage !! k).
Proof.
  unfold Storage.key_order. intros H. rewrite H. split.
  - intros Hin. apply list_elem_of_fmap in Hin as ([k' v] & -> & Hin).
    apply elem_of_map_to_list in Hin. eauto.
  - intros [v Hv]. apply list_elem_of_fmap. exists (k, v).
    split; [reflexivity|]. apply elem_of_map_to_list, Hv.
Qed.

Lemma collect_keys (storage : gmap string string) (order : list string) :
  Storage.key_order storage order →
  DevToolsHelperDemo.collect order storage
  = foldl (λ data k, DevToolsHelperDemo.assign k (storage !! k) data) ∅ order.
Proof.
  intros Horder.
  unfold DevToolsHelperDemo.collect, Storage.key, Storage.getItem.
  rewrite <- (key_order_length storage order Horder).
  exact (foldl_seq_lookup
           (λ ok data, DevToolsHelperDemo.assign (default "null" ok)
                         (storage !! default "null" ok) data)
           order [] ∅).
Qed.

Lemma assign_keys_lookup (storage : gmap string string) (keys : list string)
    (data : gmap string (option string)) (k : string) :
  foldl (λ data k, DevToolsHelperDemo.assign k (storage !! k) data) data keys !! k
  = if bool_decide (k ∈ keys ∧ k ≠ "__proto__") then Some (storage !! k)
    else data !! k.
Proof.
  revert data. induction keys as [|k0 keys IH]; intros data.
  - cbn. rewrite bool_decide_eq_false_2; [reflexivity|].
    intros [H _]. by apply elem_of_nil in H.
  - cbn [foldl]. rewrite IH. clear IH.
    assert (k ≠ k0 →
            DevToolsHelperDemo.assign k0 (storage !! k0) data !! k = data !! k)
      as Hother.
    { intros Hne. unfold DevToolsHelperDemo.assign.
      destruct (String.eqb k0 "__proto__"); [reflexivity|].
      apply lookup_insert_ne. congruence. }
    destruct (decide (k = "__proto__")) as [Hp|Hp].
    { rewrite !bool_decide_eq_false_2 by tauto.
      destruct (decide (k = k0)) as [<-|Hne]; [|apply Hother, Hne].
      unfold DevToolsHelperDemo.assign. subst k. reflexivity. }
    destruct (decide (k ∈ keys)) as [Hin|Hin].
    { rewrite !bool_decide_eq_true_2; [reflexivity | | tauto].
      split; [by right | exact Hp]. }
    rewrite (bool_decide_eq_false_2 (k ∈ keys ∧ k ≠ "__proto__")) by tauto.
    destruct (decide (k = k0)) as [<-|Hne].
    + rewrite bool_decide_eq_true_2 by (split; [by left | exact Hp]).
      unfold DevToolsHelperDemo.assign.
      apply String.eqb_neq in Hp. rewrite Hp. apply lookup_insert_eq.
    + rewrite bool_decide_eq_false_2; [apply Hother, Hne|].
      intros [H _]. apply elem_of_cons in H as [H|H]; tauto.
Qed.

Lemma collect_lookup (storage : gmap string string) (order : list string)
    (k : string) :
  Storage.key_order storage order →
  DevToolsHelperDemo.collect order storage !! k
  = (Some <$> delete "__proto__" storage) !! k.
Proof.
  intros Horder.
  rewrite (collect_keys storage order Horder), assign_keys_lookup,
    lookup_fmap, lookup_empty.
  case_bool_decide as H.
  - destruct H as [Hin Hk]. rewrite lookup_delete_ne by congruence.
    apply (key_order_elem_of storage order k Horder) in Hin as [v Hv].
    rewrite Hv. reflexivity.
  - destruct (decide (k = "__proto__")) as [->|Hk].
    + rewrite lookup_delete_eq. reflexivity.
    + rewrite lookup_delete_ne by congruence.
      destruct (storage !! k) as [v|] eqn:Hv; [|reflexivity].
      exfalso. apply H. split; [|exact Hk].
      apply (key_order_elem_of storage order k Horder). eauto.
Qed.

Lemma collect_copy (storage : gmap string string) (order : list string) :
  Storage.key_order storage order →
  DevToolsHelperDemo.collect order storage = Some <$> delete "__proto__" storage.
Proof.
  intros Horder. apply map_eq. intros k. apply collect_lookup, Horder.
Qed.

(** X16.  The snapshot taken by [logStorageToConsole] is a faithful copy
    of both storage areas, whatever they hold and in whatever order the
    browser lists their keys: every stored key shows with its value,
    nothing else shows, and the storage areas are not changed.  The one
    exception is a key named [__proto__], which the plain object used
    for the copy cannot hold. *)
Theorem snapshot_copies_storage
    (now : string) (localOrder sessionOrder : list string)
    (st : DevToolsHelperDemo.t) :
  Storage.key_order (DevToolsHelperDemo.localStorage st) localOrder →
  Storage.key_order (DevToolsHelperDemo.sessionStorage st) sessionOrder →
  let st' := DevToolsHelperDemo.logStorageToConsole now localOrder sessionOrder st in
  DevToolsHelperDemo.localStorage st' = DevToolsHelperDemo.localStorage st
  ∧ DevToolsHelperDemo.sessionStorage st' = DevToolsHelperDemo.sessionStorage st
  ∧ ∃ snap,
      DevToolsHelperDemo.storageSnapshot st' = Some snap
      ∧ DevToolsHelperDemo.timestamp snap = now
      ∧ DevToolsHelperDemo.snap_local snap
        = Some <$> delete "__proto__" (DevToolsHelperDemo.localStorage st)
      ∧ DevToolsHelperDemo.snap_session snap
        = Some <$> delete "__proto__" (DevToolsHelperDemo.sessionStorage st)
      ∧ (∀ k, k ≠ "__proto__" →
           DevToolsHelperDemo.snap_local snap !! k
           = Some <$> DevToolsHelperDemo.localStorage st !! k)
      ∧ (∀ k, k ≠ "__proto__" →
           DevToolsHelperDemo.snap_session snap !! k
           = Some <$> DevToolsHelperDemo.sessionStorage st !! k)
      ∧ DevToolsHelperDemo.keyCount (DevToolsHelperDemo.snap_local snap)
        = size (delete "__proto__" (DevToolsHelperDemo.localStorage st))
      ∧ DevToolsHelperDemo.keyCount (DevToolsHelperDemo.snap_session snap)
        = size (delete "__proto__" (DevToolsHelperDemo.sessionStorage st)).
Proof.
  intros Hlocal Hsession st'. split; [reflexivity|]. split; [reflexivity|].
  eexists. split; [reflexivity|]. cbn.
  rewrite (collect_copy _ _ Hlocal), (collect_copy _ _ Hsession).
  unfold DevToolsHelperDemo.keyCount. rewrite !map_size_fmap.
  repeat split;
    intros k Hk; rewrite lookup_fmap, lookup_delete_ne by congruence; reflexivity.
Qed.

(** Two listings of the same three keys. *)
Lemma snapshot_copies_storage_witness :
  let store : gmap string string :=
    {["demo.theme" := "dark"; "demo.displayName" := "Ada"; "__proto__" := "x"]} in
  let st := {| DevToolsHelperDemo.storageSnapshot := None;
               DevToolsHelperDemo.localStorage := store;
               DevToolsHelperDemo.sessionStorage := store |} in
  let order1 := ["demo.theme"; "__proto__"; "demo.displayName"] in
  let order2 := ["demo.displayName"; "demo.theme"; "__proto__"] in
  Storage.key_order store order1
  ∧ Storage.key_order store order2
  ∧ ∃ snap,
      DevToolsHelperDemo.storageSnapshot
        (DevToolsHelperDemo.logStorageToConsole "10:00:00" order1 order2 st)
      = Some snap
      ∧ "demo.theme" ≠ "__proto__"
      ∧ DevToolsHelperDemo.snap_local snap !! "demo.theme" = Some (Some "dark")
      ∧ DevToolsHelperDemo.snap_session snap !! "demo.theme" = Some (Some "dark")
      ∧ DevToolsHelperDemo.keyCount (DevToolsHelperDemo.snap_local snap) = 2
      ∧ DevToolsHelperDemo.keyCount (DevToolsHelperDemo.snap_session snap) = 2.
Proof.
  intros store st order1 order2.
  assert (Storage.key_order store order1) as H1
    by (unfold Storage.key_order; apply (bool_decide_unpack _); vm_compute; exact I).
  assert (Storage.key_order store order2) as H2
    by (unfold Storage.key_order; apply (bool_decide_unpack _); vm_compute; exact I).
  split; [exact H1|]. split; [exact H2|].
  destruct (snapshot_copies_storage "10:00:00" order1 order2 st H1 H2)
    as (_ & _ & snap & Hsnap & _ & _ & _ & Hlocal & Hsession & Hcl & Hcs).
  exists snap. split; [exact Hsnap|].
  assert ("demo.theme" ≠ "__proto__") as Hne by discriminate.
  split; [exact Hne|].
  split; [rewrite (Hlocal _ Hne); reflexivity|].
  split; [rewrite (Hsession _ Hne); reflexivity|].
  split; [rewrite Hcl | rewrite Hcs]; reflexivity.
Defined.

(** X17.  After [clearAllStorage] the snapshot is gone and both storage
    areas are empty, so a refresh starts every page from its defaults,
    whatever was stored before: the sidenav open, the theme [light],
    the display name empty and not marked as restored, both comparison
    values empty; and a snapshot taken then lists no key. *)
Theorem clearAllStorage_resets_pages
    (st : DevToolsHelperDemo.t) (now path : string) (page : option string)
    (localOrder sessionOrder : list string) :
  let st' := DevToolsHelperDemo.clearAllStorage st in
  let store := DevToolsHelperDemo.localStorage st' in
  let session := DevToolsHelperDemo.sessionStorage st' in
  DevToolsHelperDemo.storageSnapshot st' = None
  ∧ (∀ k, Storage.getItem k store = None ∧ Storage.getItem k session = None)
  ∧ isSidenavOpen (initialize store path) = true
  ∧ ThemeDemo.theme (ThemeDemo.mount store page) = "light"
  ∧ DisplayNameDemo.displayName (DisplayNameDemo.mount store) = ""
  ∧ DisplayNameDemo.wasRestored (DisplayNameDemo.mount store) = false
  ∧ SessionVsLocalDemo.sessionValue (SessionVsLocalDemo.mount session store) = ""
  ∧ SessionVsLocalDemo.localValue (SessionVsLocalDemo.mount session store) = ""
  ∧ (Storage.key_order store localOrder →
     Storage.key_order session sessionOrder →
     ∃ snap,
       DevToolsHelperDemo.storageSnapshot
         (DevToolsHelperDemo.logStorageToConsole now localOrder sessionOrder st')
       = Some snap
       ∧ DevToolsHelperDemo.keyCount (DevToolsHelperDemo.snap_local snap) = 0
       ∧ DevToolsHelperDemo.keyCount (DevToolsHelperDemo.snap_session snap) = 0).
Proof.
  intros st' store session.
  assert (Storage.key_order store localOrder →
          Storage.key_order session sessionOrder →
          ∃ snap,
            DevToolsHelperDemo.storageSnapshot
              (DevToolsHelperDemo.logStorageToConsole now localOrder sessionOrder st')
            = Some snap
            ∧ DevToolsHelperDemo.keyCount (DevToolsHelperDemo.snap_local snap) = 0
            ∧ DevToolsHelperDemo.keyCount (DevToolsHelperDemo.snap_session snap) = 0)
    as Hsnap.
  { intros Hlocal Hsession. eexists. split; [reflexivity|].
    cbn [DevToolsHelperDemo.snap_local DevToolsHelperDemo.snap_session].
    fold store session.
    rewrite (collect_copy _ _ Hlocal), (collect_copy _ _ Hsession).
    split; reflexivity. }
  revert Hsnap. unfold store, session, st'. cbn.
  unfold Storage.clear, Storage.getItem.
  rewrite initialize_isSidenavOpen, name_mount_fields, svl_mount_fields.
  destruct (theme_mount_fields ∅ page) as (-> & _).
  rewrite !lookup_empty. cbn. intros Hsnap.
  repeat split; try apply lookup_empty. exact Hsnap.
Qed.

Lemma clearAllStorage_resets_pages_witness :
  let st := {| DevToolsHelperDemo.storageSnapshot := None;
               DevToolsHelperDemo.localStorage := {[SIDENAV_OPEN_KEY := "false"]};
               DevToolsHelperDemo.sessionStorage := {["demo.sessionValue" := "x"]} |} in
  let st' := DevToolsHelperDemo.clearAllStorage st in
  Storage.key_order (DevToolsHelperDemo.localStorage st') []
  ∧ Storage.key_order (DevToolsHelperDemo.sessionStorage st') []
  ∧ ∃ snap,
      DevToolsHelperDemo.storageSnapshot
        (DevToolsHelperDemo.logStorageToConsole "10:00:00" [] [] st') = Some snap
      ∧ DevToolsHelperDemo.keyCount (DevToolsHelperDemo.snap_local snap) = 0
      ∧ DevToolsHelperDemo.keyCount (DevToolsHelperDemo.snap_session snap) = 0.
Proof.
  intros st st'.
  assert (Storage.key_order (DevToolsHelperDemo.localStorage st') []) as H1
    by (unfold Storage.key_order; apply (bool_decide_unpack _); vm_compute; exact I).
  assert (Storage.key_order (DevToolsHelperDemo.sessionStorage st') []) as H2
    by (unfold Storage.key_order; apply (bool_decide_unpack _); vm_compute; exact I).
  split; [exact H1|]. split; [exact H2|].
  destruct (clearAllStorage_resets_pages st "10:00:00" "/" None [] [])
    as (_ & _ & _ & _ & _ & _ & _ & _ & Hsnap).
  exact (Hsnap H1 H2).
Defined.

(** * Loading twice *)

(** X18.  Loading is idempotent on what it restores and stores: a
    second start-up on the storage left by a first one gives the same
    sidenav flag and the same storage contents.  The first load has
    replaced any stored string other than ["true"] by ["false"]; each
    later load finds the flag closed and stores ["false"] once more, and
    stores nothing when the flag is open. *)
Theorem initialize_twice (store : gmap string string) (path path' : string) :
  let st1 := initialize store path in
  let st2 := initialize (localStorage st1) path' in
  isSidenavOpen st2 = isSidenavOpen st1
  ∧ localStorage st2 = localStorage st1
  ∧ storage_log st2
    = (if isSidenavOpen st1 then [] else [(SIDENAV_OPEN_KEY, "false")]).
Proof.
  intros st1 st2. unfold st2, st1. rewrite !initialize_unfold.
  destruct (store !! SIDENAV_OPEN_KEY) as [saved|] eqn:Hs.
  - destruct (String.eqb saved "true") eqn:Ht; cbn.
    + rewrite Hs, Ht. repeat split.
    + unfold Storage.setItem. rewrite lookup_insert_eq. cbn.
      rewrite insert_insert_eq. repeat split.
  - cbn. rewrite Hs. repeat split.
Qed.
